(** * The Cakto webhook handler of [src/app/api/create-user/route.ts]

    A shallow embedding of the route handler [POST], of its two helpers
    [calculateExpirationDate] and [sendWelcomeEmail] and of the table
    [planMapping], with the parts of the JavaScript runtime they rest on:
    truthiness, property reads, string conversion, and the [Date]
    arithmetic, printing and parsing of ECMA-262, section 21.4.

    An [async] function is a tree of calls ([prog]): the calls to the
    account directory ([authService], whose code is outside the route), to
    the Gmail client and to the console are answered by an environment,
    which may resolve or reject each of them; [run] gives the response and
    the trace of calls of one execution.  The properties the specification
    states are proved for every environment. *)

From Stdlib Require Import ZArith List String Ascii Bool Lia DecimalString.
Import ListNotations.

Local Open Scope string_scope.
Local Open Scope Z_scope.
Set Warnings "-register-all".

(** ** The host

    What the handler takes from the machine it runs on.  JSON numbers are
    IEEE doubles; the handler only ever tests one for truthiness, converts
    it to a string (as a property key or inside a template) or hands it to
    [new Date], so doubles are kept abstract behind these three operations.
    The time zone is taken to have a constant offset from UTC (no daylight
    saving transitions).  [Date.parse] is fixed by ECMA-262 for the
    date-time string format only; for any other string the engine's own
    heuristics apply ([Date_parse_fallback]). *)
Class Host : Type := {
  number : Type;
  number_truthy : number -> bool;
  Number_toString : number -> string;
  number_toInteger : number -> Z;
  LocalTZA : Z;
  Date_parse_fallback : string -> option Z;
  process_env : string -> option string
}.

(** ** ECMAScript time values (ECMA-262, 21.4.1)

    A time value is an integral number of milliseconds since the epoch, or
    NaN; [option Z] with [None] for NaN.  All the arithmetic below stays
    under 2^53 in absolute value before [TimeClip] looks at it, so doubles
    and integers agree. *)
Module JSDate.

Definition msPerDay : Z := 86400000.
Definition msPerHour : Z := 3600000.
Definition msPerMinute : Z := 60000.
Definition msPerSecond : Z := 1000.
Definition maxTime : Z := 8640000000000000.

Definition Day (t : Z) : Z := t / msPerDay.
Definition TimeWithinDay (t : Z) : Z := t mod msPerDay.

Definition DaysInYear (y : Z) : Z :=
  if negb (y mod 4 =? 0) then 365
  else if negb (y mod 100 =? 0) then 366
  else if negb (y mod 400 =? 0) then 365
  else 366.

Definition DayFromYear (y : Z) : Z :=
  365 * (y - 1970) + (y - 1969) / 4 - (y - 1901) / 100 + (y - 1601) / 400.

Definition TimeFromYear (y : Z) : Z := msPerDay * DayFromYear y.

(** The largest year [y] with [DayFromYear y <= d]: the mean year length
    (146097 days in 400 years) gives an estimate that is off by one at
    most, which the two comparisons settle ([YearFromDay_spec] below). *)
Definition YearFromDay (d : Z) : Z :=
  let y0 := 1970 + (400 * d) / 146097 in
  if DayFromYear (y0 + 1) <=? d then y0 + 1
  else if DayFromYear y0 <=? d then y0
  else y0 - 1.

Definition YearFromTime (t : Z) : Z := YearFromDay (Day t).

Definition InLeapYear (t : Z) : Z :=
  if DaysInYear (YearFromTime t) =? 366 then 1 else 0.

Definition DayWithinYear (t : Z) : Z := Day t - DayFromYear (YearFromTime t).

Definition MonthFromTime (t : Z) : Z :=
  let d := DayWithinYear t in
  let leap := InLeapYear t in
  if d <? 31 then 0
  else if d <? 59 + leap then 1
  else if d <? 90 + leap then 2
  else if d <? 120 + leap then 3
  else if d <? 151 + leap then 4
  else if d <? 181 + leap then 5
  else if d <? 212 + leap then 6
  else if d <? 243 + leap then 7
  else if d <? 273 + leap then 8
  else if d <? 304 + leap then 9
  else if d <? 334 + leap then 10
  else 11.

Definition DateFromTime (t : Z) : Z :=
  let d := DayWithinYear t in
  let leap := InLeapYear t in
  match MonthFromTime t with
  | 0 => d + 1
  | 1 => d - 30
  | 2 => d - 58 - leap
  | 3 => d - 89 - leap
  | 4 => d - 119 - leap
  | 5 => d - 150 - leap
  | 6 => d - 180 - leap
  | 7 => d - 211 - leap
  | 8 => d - 242 - leap
  | 9 => d - 272 - leap
  | 10 => d - 303 - leap
  | _ => d - 333 - leap
  end.

Definition HourFromTime (t : Z) : Z := (t / msPerHour) mod 24.
Definition MinFromTime (t : Z) : Z := (t / msPerMinute) mod 60.
Definition SecFromTime (t : Z) : Z := (t / msPerSecond) mod 60.
Definition msFromTime (t : Z) : Z := t mod msPerSecond.

(** Days of the year before month [mn] (0 to 11) starts. *)
Definition DaysBeforeMonth (leap mn : Z) : Z :=
  match mn with
  | 0 => 0
  | 1 => 31
  | 2 => 59 + leap
  | 3 => 90 + leap
  | 4 => 120 + leap
  | 5 => 151 + leap
  | 6 => 181 + leap
  | 7 => 212 + leap
  | 8 => 243 + leap
  | 9 => 273 + leap
  | 10 => 304 + leap
  | _ => 334 + leap
  end.

Definition DaysInMonth (y mn : Z) : Z :=
  match mn with
  | 1 => if DaysInYear y =? 366 then 29 else 28
  | 3 | 5 | 8 | 10 => 30
  | _ => 31
  end.

(** [MakeDay]: the day number of the first of month [mn] of year [ym],
    plus [date - 1].  Months and dates out of their range carry over, which
    is what makes [setMonth] roll a day that the target month lacks into
    the following month.  The range of time values is checked by
    [TimeClip] on the finished value, as engines do. *)
Definition MakeDay (year month date : Z) : Z :=
  let ym := year + month / 12 in
  let mn := month mod 12 in
  let leap := if DaysInYear ym =? 366 then 1 else 0 in
  DayFromYear ym + DaysBeforeMonth leap mn + date - 1.

Definition MakeTime (hour min sec ms : Z) : Z :=
  hour * msPerHour + min * msPerMinute + sec * msPerSecond + ms.

Definition MakeDate (day time : Z) : Z := day * msPerDay + time.

Definition TimeClip (t : Z) : option Z :=
  if Z.abs t <=? maxTime then Some t else None.

End JSDate.

(** ** JavaScript values and exceptions *)

(** What a [throw] or a rejected promise carries, as far as the handler's
    [catch] looks at it: [error instanceof Error] and then [error.message]. *)
Inductive thrown : Type :=
  | ErrorObject (name message : string)
  | NotAnError.

Definition RangeError_invalid_time : thrown :=
  ErrorObject "RangeError" "Invalid time value".

Definition TypeError_not_primitive : thrown :=
  ErrorObject "TypeError" "Cannot convert object to primitive value".

(** How an awaited call ends. *)
Inductive outcome (X : Type) : Type :=
  | Resolved (x : X)
  | Rejected (e : thrown).

Arguments Resolved {X} x.
Arguments Rejected {X} e.

Section Runtime.

Context {host : Host}.

(** The values [request.json()] can produce, and [undefined], which a read
    of a missing property produces.  An object is the list of its own
    properties; a read takes the first binding of a key. *)
Inductive value : Type :=
  | VUndefined
  | VNull
  | VBool (b : bool)
  | VNumber (n : number)
  | VString (s : string)
  | VArray (elements : list value)
  | VObject (properties : list (string * value)).

(** ToBoolean: what [!x], [x && y], [x || y] and [if (x)] test. *)
Definition truthy (v : value) : bool :=
  match v with
  | VUndefined | VNull => false
  | VBool b => b
  | VNumber n => number_truthy n
  | VString s => negb (s =? "")%string
  | VArray _ | VObject _ => true
  end.

Fixpoint lookup {A : Type} (k : string) (l : list (string * A)) : option A :=
  match l with
  | [] => None
  | (k', v) :: rest => if (k =? k')%string then Some v else lookup k rest
  end.

(** [v.k] for a [v] that is neither [null] nor [undefined] and one of the
    keys the handler reads (data, event, customer, paidAt, product, email,
    name, phone, docNumber): none of them is a property of a prototype, so
    the read is [undefined] unless [v] is an object that has the key. *)
Definition get (v : value) (k : string) : value :=
  match v with
  | VObject props =>
      match lookup k props with
      | Some x => x
      | None => VUndefined
      end
  | _ => VUndefined
  end.

(** [v?.k] *)
Definition get_opt (v : value) (k : string) : value :=
  match v with
  | VUndefined | VNull => VUndefined
  | _ => get v k
  end.

(** [body[0]] for an array [body] *)
Definition first_element (l : list value) : value :=
  match l with
  | [] => VUndefined
  | x :: _ => x
  end.

(** [a || b] *)
Definition or_else (a b : value) : value := if truthy a then a else b.

(** ToString, as a template literal and a computed property key apply it:
    an array joins its elements with commas ([null] and [undefined] give
    the empty string there); an object of JSON gives [[object Object]]
    through [Object.prototype.toString], unless it has a property
    [toString] of its own, which is no function and leaves the conversion
    with a TypeError. *)
Fixpoint ToString (v : value) : thrown + string :=
  match v with
  | VUndefined => inr "undefined"
  | VNull => inr "null"
  | VBool true => inr "true"
  | VBool false => inr "false"
  | VNumber n => inr (Number_toString n)
  | VString s => inr s
  | VArray l =>
      let fix join (l : list value) : thrown + string :=
        match l with
        | [] => inr ""
        | x :: rest =>
            let sx := match x with
                      | VUndefined | VNull => inr ""
                      | _ => ToString x
                      end in
            match sx, rest with
            | inl e, _ => inl e
            | inr sx, [] => inr sx
            | inr sx, _ =>
                match join rest with
                | inl e => inl e
                | inr sr => inr (sx ++ "," ++ sr)%string
                end
            end
        end in
      join l
  | VObject props =>
      match lookup "toString" props with
      | Some _ => inl TypeError_not_primitive
      | None => inr "[object Object]"
      end
  end.

(** ** The [Date] object *)

(** A [Date] is its time value; [None] is the invalid date. *)
Definition Date : Type := option Z.

Definition LocalTime (t : Z) : Z := t + LocalTZA.
Definition UTC (t : Z) : Z := t - LocalTZA.

(** [d.getMonth()]: a number, NaN for the invalid date. *)
Definition getMonth (d : Date) : option Z :=
  match d with
  | None => None
  | Some t => Some (JSDate.MonthFromTime (LocalTime t))
  end.

(** [a + b] on numbers that are integers or NaN. *)
Definition num_add (a b : option Z) : option Z :=
  match a, b with
  | Some x, Some y => Some (x + y)
  | _, _ => None
  end.

(** [d.setMonth(month)]: the date [d] is left with (ECMA-262, 21.4.4.25). *)
Definition setMonth (d : Date) (month : option Z) : Date :=
  match d with
  | None => None
  | Some t =>
      match month with
      | None => None
      | Some m =>
          let t := LocalTime t in
          let newDate :=
            JSDate.MakeDate
              (JSDate.MakeDay (JSDate.YearFromTime t) m (JSDate.DateFromTime t))
              (JSDate.TimeWithinDay t) in
          JSDate.TimeClip (UTC newDate)
      end
  end.

Definition digit (n : Z) : ascii := ascii_of_nat (48 + Z.to_nat n).

(** [n] in decimal, on exactly [width] digits. *)
Fixpoint pad (width : nat) (n : Z) : string :=
  match width with
  | O => ""
  | S w => (pad w (n / 10) ++ String (digit (n mod 10)) "")%string
  end.

Definition iso_year (y : Z) : string :=
  if (0 <=? y) && (y <=? 9999) then pad 4 y
  else ((if (y <? 0)%Z then "-" else "+") ++ pad 6 (Z.abs y))%string.

Definition iso_format (t : Z) : string :=
  (iso_year (JSDate.YearFromTime t) ++ "-" ++
   pad 2 (JSDate.MonthFromTime t + 1)%Z ++ "-" ++
   pad 2 (JSDate.DateFromTime t) ++ "T" ++
   pad 2 (JSDate.HourFromTime t) ++ ":" ++
   pad 2 (JSDate.MinFromTime t) ++ ":" ++
   pad 2 (JSDate.SecFromTime t) ++ "." ++
   pad 3 (JSDate.msFromTime t) ++ "Z")%string.

(** [d.toISOString()]: throws a RangeError on the invalid date. *)
Definition toISOString (d : Date) : thrown + string :=
  match d with
  | None => inl RangeError_invalid_time
  | Some t => inr (iso_format t)
  end.

(** *** [Date.parse] on the date-time string format (ECMA-262, 21.4.1.32)

    [YYYY], [YYYY-MM] or [YYYY-MM-DD] (the year also as a sign and six
    digits), alone or followed by [THH:mm], [THH:mm:ss] or [THH:mm:ss.sss]
    and then nothing, [Z] or a signed [HH:mm].  Only strings whose every
    field is a legal value are recognised here; any other string is left to
    the engine. *)

Definition is_digit (c : ascii) : bool :=
  let n := Z.of_nat (nat_of_ascii c) in (48 <=? n) && (n <=? 57).

Fixpoint read_digits_from (n : nat) (acc : Z) (s : string) : option (Z * string) :=
  match n with
  | O => Some (acc, s)
  | S n' =>
      match s with
      | String c r =>
          if is_digit c
          then read_digits_from n' (10 * acc + (Z.of_nat (nat_of_ascii c) - 48)) r
          else None
      | EmptyString => None
      end
  end.

Definition read_digits (n : nat) (s : string) : option (Z * string) :=
  read_digits_from n 0 s.

Definition read_year (s : string) : option (Z * string) :=
  match s with
  | String "+"%char r => read_digits 6 r
  | String "-"%char r =>
      match read_digits 6 r with
      | Some (y, r') => if y =? 0 then None else Some (- y, r')
      | None => None
      end
  | _ => read_digits 4 s
  end.

(** year, month (1 to 12), day of the month, and the rest of the string *)
Definition read_date (s : string) : option (Z * Z * Z * string) :=
  match read_year s with
  | None => None
  | Some (y, r) =>
      match r with
      | String "-"%char r1 =>
          match read_digits 2 r1 with
          | None => None
          | Some (mo, r2) =>
              match r2 with
              | String "-"%char r3 =>
                  match read_digits 2 r3 with
                  | None => None
                  | Some (d, r4) => Some (y, mo, d, r4)
                  end
              | _ => Some (y, mo, 1, r2)
              end
          end
      | _ => Some (y, 1, 1, r)
      end
  end.

(** the time of day in milliseconds, and the rest of the string *)
Definition read_time (s : string) : option (Z * string) :=
  match read_digits 2 s with
  | Some (h, String ":"%char r1) =>
      match read_digits 2 r1 with
      | None => None
      | Some (mi, r2) =>
          let finish (sec ms : Z) (r : string) :=
            if (h <=? 24) && (mi <=? 59) && (sec <=? 59)
               && ((h <? 24) || ((mi =? 0) && (sec =? 0) && (ms =? 0)))
            then Some (JSDate.MakeTime h mi sec ms, r)
            else None in
          match r2 with
          | String ":"%char r3 =>
              match read_digits 2 r3 with
              | None => None
              | Some (sec, r4) =>
                  match r4 with
                  | String "."%char r5 =>
                      match read_digits 3 r5 with
                      | None => None
                      | Some (ms, r6) => finish sec ms r6
                      end
                  | _ => finish sec 0 r4
                  end
              end
          | _ => finish 0 0 r2
          end
      end
  | _ => None
  end.

(** the UTC offset in milliseconds; [Some None] when the string ends
    without one, which means local time *)
Definition read_offset (s : string) : option (option Z) :=
  match s with
  | EmptyString => Some None
  | String "Z"%char EmptyString => Some (Some 0)
  | String sign r =>
      if (sign =? "+")%char || (sign =? "-")%char then
        match read_digits 2 r with
        | Some (h, String ":"%char r1) =>
            match read_digits 2 r1 with
            | Some (mi, EmptyString) =>
                if (h <=? 23) && (mi <=? 59)
                then Some (Some ((if (sign =? "-")%char then -1 else 1)
                                 * (h * JSDate.msPerHour + mi * JSDate.msPerMinute)))
                else None
            | _ => None
            end
        | _ => None
        end
      else None
  end.

Definition Date_parse_iso (s : string) : option Z :=
  match read_date s with
  | None => None
  | Some (y, mo, d, r) =>
      if (1 <=? mo) && (mo <=? 12) && (1 <=? d) && (d <=? JSDate.DaysInMonth y (mo - 1))
      then
        let day := JSDate.MakeDay y (mo - 1) d in
        match r with
        | EmptyString => Some (JSDate.MakeDate day 0)
        | String "T"%char r1 =>
            match read_time r1 with
            | None => None
            | Some (time, r2) =>
                match read_offset r2 with
                | None => None
                | Some None => Some (UTC (JSDate.MakeDate day time))
                | Some (Some offset) => Some (JSDate.MakeDate day time - offset)
                end
            end
        | _ => None
        end
      else None
  end.

Definition Date_parse (s : string) : Date :=
  match Date_parse_iso s with
  | Some tv => JSDate.TimeClip tv
  | None =>
      match Date_parse_fallback s with
      | Some tv => JSDate.TimeClip tv
      | None => None
      end
  end.

(** [new Date(v)]: a string is parsed, so is what an array or an object
    converts to (the conversion may throw); anything else is converted to
    a number. *)
Definition Date_new (v : value) : thrown + Date :=
  match v with
  | VString s => inr (Date_parse s)
  | VArray _ | VObject _ =>
      match ToString v with
      | inl e => inl e
      | inr s => inr (Date_parse s)
      end
  | VNumber n => inr (JSDate.TimeClip (number_toInteger n))
  | VBool b => inr (Some (if b then 1 else 0))
  | VNull => inr (Some 0)
  | VUndefined => inr None
  end.

(** ** The collaborators and the effects of the handler *)

(** [User['plan']] and the entries of [planMapping]. *)
Record PlanInfo : Type := {
  plan : string;
  durationInMonths : Z
}.

(** The argument of [authService.login]. *)
Record Credentials : Type := {
  cred_email : value;
  cred_password : string
}.

(** [Omit<User, 'id' | 'createdAt' | 'updatedAt'>]: what [register] and
    [sendWelcomeEmail] receive.  The fields copied from the request hold
    whatever value the request had there. *)
Record NewUser : Type := {
  email : value;
  password : string;
  nome : value;
  phone : value;
  cpf : value;
  birthDate : string;
  role : string;
  isActive : bool;
  user_plan : value;
  planExpiresAt : string
}.

(** The second argument of [authService.updateUser]: the fields of [User]
    the object literal sets; [None] for a field it does not have. *)
Record UserPatch : Type := {
  patch_email : option value;
  patch_password : option string;
  patch_nome : option value;
  patch_phone : option value;
  patch_cpf : option value;
  patch_birthDate : option string;
  patch_role : option string;
  patch_isActive : option bool;
  patch_plan : option value;
  patch_planExpiresAt : option string
}.

(** A [User] as the service returns it; the handler reads its [id] only. *)
Record User : Type := {
  id : string
}.

(** What [login] and [register] resolve to: [success], [user], [message]. *)
Record AuthResult : Type := {
  success : bool;
  user : option User;
  message : option string
}.

Inductive console_arg : Type :=
  | ArgString (s : string)
  | ArgMessage (m : option string)
  | ArgThrown (e : thrown).

(** The calls that leave the handler: the account directory
    ([authService], whose code is not part of the route), the Gmail client
    and the console.  [event X] is a call whose promise resolves to an
    [X]. *)
Inductive event : Type -> Type :=
  | authService_login (credentials : Credentials) : event AuthResult
  | authService_updateUser (userId : string) (patch : UserPatch) : event unit
  | authService_register (payload : NewUser) : event AuthResult
  | oAuth2Client_getAccessToken : event unit
  | gmail_users_messages_send (userId : string) (raw : string) : event unit
  | console (method : string) (args : list console_arg) : event unit.

(** An [async] function body: it returns, throws, or performs a call and
    goes on from its outcome. *)
Inductive prog (R : Type) : Type :=
  | Return (r : R)
  | Throw (e : thrown)
  | Perform {X : Type} (ev : event X) (k : outcome X -> prog R).

Arguments Return {R} r.
Arguments Throw {R} e.
Arguments Perform {R X} ev k.

Fixpoint bind {A B : Type} (p : prog A) (f : A -> prog B) : prog B :=
  match p with
  | Return a => f a
  | Throw e => Throw e
  | Perform ev k => Perform ev (fun o => bind (k o) f)
  end.

(** [try { p } catch (error) { h error }] *)
Fixpoint try_catch {A : Type} (p : prog A) (h : thrown -> prog A) : prog A :=
  match p with
  | Return a => Return a
  | Throw e => h e
  | Perform ev k => Perform ev (fun o => try_catch (k o) h)
  end.

(** [await ev] *)
Definition await {X : Type} (ev : event X) : prog X :=
  Perform ev (fun o =>
    match o with
    | Resolved x => Return x
    | Rejected e => Throw e
    end).

(** A call to the console: nothing is awaited and nothing comes back. *)
Definition console_call (method : string) (args : list console_arg) : prog unit :=
  Perform (console method args) (fun _ => Return tt).

(** An expression that may throw. *)
Definition eval {A : Type} (r : thrown + A) : prog A :=
  match r with
  | inl e => Throw e
  | inr a => Return a
  end.

Notation "x <- p ;; q" := (bind p (fun x => q))
  (at level 61, p at next level, right associativity).
Notation "p ;; q" := (bind p (fun _ => q))
  (at level 61, right associativity).

(** ** [planMapping]

    The object literal's own properties, and the property names it
    inherits from [Object.prototype], which [planMapping[key]] reads as
    well. *)
Definition planMapping : list (string * PlanInfo) :=
  [ ("Plano Mensal", {| plan := "mensal"; durationInMonths := 1 |});
    ("Plano 6 Meses", {| plan := "6meses"; durationInMonths := 6 |});
    ("Plano Anual", {| plan := "anual"; durationInMonths := 12 |});
    ("Produto Teste", {| plan := "anual"; durationInMonths := 12 |}) ].

Definition Object_prototype_keys : list string :=
  [ "constructor"; "hasOwnProperty"; "isPrototypeOf"; "propertyIsEnumerable";
    "toLocaleString"; "toString"; "valueOf"; "__proto__";
    "__defineGetter__"; "__defineSetter__"; "__lookupGetter__";
    "__lookupSetter__" ].

(** What [planMapping[key]] evaluates to: an entry of the table, a member
    of [Object.prototype] (a function or the prototype object: truthy, and
    without [plan] or [durationInMonths]), or [undefined]. *)
Inductive planMapping_value : Type :=
  | Entry (info : PlanInfo)
  | Inherited (key : string)
  | NoProperty.

Definition planMapping_get (key : string) : planMapping_value :=
  match lookup key planMapping with
  | Some info => Entry info
  | None =>
      if existsb (String.eqb key) Object_prototype_keys
      then Inherited key
      else NoProperty
  end.

(** ** [calculateExpirationDate]

    [months] is a number at run time: an integer, or NaN ([None]) when the
    caller passes [undefined]. *)
Definition calculateExpirationDate (startDate : Date) (months : option Z)
  : thrown + string :=
  let expirationDate : Date := startDate in
  let expirationDate := setMonth expirationDate (num_add (getMonth expirationDate) months) in
  toISOString expirationDate.

(** ** [Buffer.from(s).toString('base64')]

    Strings are kept as their UTF-8 bytes, so [Buffer.from] is the list of
    the string's bytes. *)
Definition Buffer_from (s : string) : list Z :=
  map (fun c => Z.of_nat (nat_of_ascii c)) (list_ascii_of_string s).

Definition base64_alphabet : string :=
  "ABCDEFGHIJKLMNOPQRSTUVWXYZabcdefghijklmnopqrstuvwxyz0123456789+/".

Definition base64_char (n : Z) : string :=
  match String.get (Z.to_nat n) base64_alphabet with
  | Some c => String c EmptyString
  | None => ""
  end.

Fixpoint base64 (bytes : list Z) : string :=
  match bytes with
  | [] => ""
  | [a] =>
      (base64_char (a / 4) ++ base64_char ((a mod 4) * 16) ++ "==")%string
  | [a; b] =>
      (base64_char (a / 4) ++ base64_char ((a mod 4) * 16 + b / 16)
       ++ base64_char ((b mod 16) * 4) ++ "=")%string
  | a :: b :: c :: rest =>
      (base64_char (a / 4) ++ base64_char ((a mod 4) * 16 + b / 16)
       ++ base64_char ((b mod 16) * 4 + c / 64) ++ base64_char (c mod 64)
       ++ base64 rest)%string
  end.

(** [.replace(/\+/g, '-').replace(/\//g, '_')] *)
Fixpoint url_safe (s : string) : string :=
  match s with
  | EmptyString => EmptyString
  | String c r =>
      String (if (c =? "+")%char then "-"%char
              else if (c =? "/")%char then "_"%char else c) (url_safe r)
  end.

(** [.replace(/=+$/, '')] *)
Fixpoint strip_padding (s : string) : string :=
  match s with
  | EmptyString => EmptyString
  | String c r =>
      match strip_padding r with
      | EmptyString => if (c =? "=")%char then EmptyString else String c EmptyString
      | r' => String c r'
      end
  end.

(** ** [sendWelcomeEmail] *)

Definition dq : string := String (ascii_of_nat 34) EmptyString.
Definition newline : string := String (ascii_of_nat 10) EmptyString.

(** [!process.env.NAME] is false *)
Definition env_set (name : string) : bool :=
  match process_env name with
  | Some s => negb (s =? "")%string
  | None => false
  end.

(** [process.env.NAME] inside a template *)
Definition env_text (name : string) : string :=
  match process_env name with
  | Some s => s
  | None => "undefined"
  end.

(** [process.env.NEXT_PUBLIC_APP_URL || 'http://localhost:3000'] *)
Definition app_url : string :=
  if env_set "NEXT_PUBLIC_APP_URL" then env_text "NEXT_PUBLIC_APP_URL"
  else "http://localhost:3000".

(** The four variables [sendWelcomeEmail] requires are set. *)
Definition mail_configured : bool :=
  env_set "G_CLIENT_ID" && env_set "G_CLIENT_SECRET"
  && env_set "G_REFRESH_TOKEN" && env_set "EMAIL_FROM".

Definition subject : string :=
  "🎓 Bem-vindo ao ENEM Pro - Suas credenciais de acesso".

Definition emailBody_1 : string :=
  ("
      <div style=" ++ dq ++ "font-family: Arial, sans-serif; line-height: 1.6; color: #333;" ++ dq ++ ">
        <h2>Olá, ")%string.

Definition emailBody_2 : string :=
  ("!</h2>
        <p>Seu pagamento foi confirmado e seu acesso à plataforma EnemPro foi liberado!</p>
        <h3>Suas credenciais de acesso:</h3>
        <ul>
          <li><strong>Email:</strong> ")%string.

Definition emailBody_3 : string :=
  ("</li>
          <li><strong>Senha:</strong> ")%string.

Definition emailBody_4 : string :=
  ("</li>
        </ul>
        <p>Você pode acessar a plataforma através do link abaixo:</p>
        <a href=" ++ dq)%string.

Definition emailBody_5 : string :=
  ("/login" ++ dq ++ " style=" ++ dq ++ "display: inline-block; padding: 10px 20px; background-color: #007bff; color: white; text-decoration: none; border-radius: 5px;" ++ dq ++ ">Acessar Plataforma</a>
        <p>Recomendamos que você altere sua senha no primeiro acesso.</p>
        <br>
        <p>Atenciosamente,</p>
        <p><strong>Equipe EnemPro</strong></p>
      </div>
    ")%string.

(** The template literal of [emailBody], holes filled. *)
Definition emailBody (nome_text email_text password_text app_url : string) : string :=
  (emailBody_1 ++ nome_text ++ emailBody_2 ++ email_text ++ emailBody_3
   ++ password_text ++ emailBody_4 ++ app_url ++ emailBody_5)%string.

Definition rawMessage (emailFrom emailTo body : string) : string :=
  String.concat newline
    [ ("From: " ++ emailFrom)%string;
      ("To: " ++ emailTo)%string;
      ("Subject: =?utf-8?B?" ++ base64 (Buffer_from subject) ++ "?=")%string;
      "Content-Type: text/html; charset=utf-8";
      "MIME-Version: 1.0";
      "";
      body ].

Definition encodedMessage (raw : string) : string :=
  strip_padding (url_safe (base64 (Buffer_from raw))).

Definition sendWelcomeEmail (user : NewUser) : prog unit :=
  if negb (env_set "G_CLIENT_ID") || negb (env_set "G_CLIENT_SECRET")
     || negb (env_set "G_REFRESH_TOKEN") || negb (env_set "EMAIL_FROM")
  then
    console_call "error"
      [ArgString "Credenciais da API do Gmail não configuradas. O e-mail de boas-vindas não será enviado."]
  else
    try_catch
      (accessToken <- await oAuth2Client_getAccessToken ;;
       let emailFrom := ("EnemPro <" ++ env_text "EMAIL_FROM" ++ ">")%string in
       let emailTo := email user in
       nome_text <- eval (ToString (nome user)) ;;
       email_text <- eval (ToString (email user)) ;;
       let body := emailBody nome_text email_text (password user) app_url in
       to_text <- eval (ToString emailTo) ;;
       let raw := rawMessage emailFrom to_text body in
       await (gmail_users_messages_send "me" (encodedMessage raw)) ;;
       logged <- eval (ToString (email user)) ;;
       console_call "log"
         [ArgString ("E-mail de boas-vindas enviado com sucesso para " ++ logged
                     ++ " via API do Gmail.")%string])
      (fun error =>
         logged <- eval (ToString (email user)) ;;
         console_call "error"
           [ArgString ("Falha ao enviar e-mail de boas-vindas para " ++ logged
                       ++ " via API do Gmail:")%string;
            ArgThrown error]).

(** ** The route handler [POST] *)

(** What [await request.json()] ends with: the parsed body, or the error
    the parser throws. *)
Record Request : Type := {
  json : thrown + value
}.

(** [NextResponse.json(body, { status })] *)
Record Response : Type := {
  status : Z;
  res_success : bool;
  res_message : string;
  res_userId : option string;
  res_error : option string
}.

Definition NextResponse_json (success : bool) (message : string)
  (userId error : option string) (status : option Z) : Response :=
  {| status := match status with Some n => n | None => 200 end;
     res_success := success;
     res_message := message;
     res_userId := userId;
     res_error := error |}.

(** [v === s] for a string literal [s] *)
Definition strict_eq (v : value) (s : string) : bool :=
  match v with
  | VString s' => (s' =? s)%string
  | _ => false
  end.

(** [Array.isArray(body) ? body[0] : body] *)
Definition webhookData_of (body : value) : value :=
  match body with
  | VArray l => first_element l
  | _ => body
  end.

Definition defaultPassword : string := "123456".

Definition newUserPayload (customer plan : value) (expirationDate : string) : NewUser :=
  {| email := get customer "email";
     password := defaultPassword;
     nome := get customer "name";
     phone := or_else (get customer "phone") (VString "");
     cpf := or_else (get customer "docNumber") (VString "");
     birthDate := "";
     role := "user";
     isActive := true;
     user_plan := plan;
     planExpiresAt := expirationDate |}.

Definition subscription_patch (plan : value) (expirationDate : string) : UserPatch :=
  {| patch_email := None;
     patch_password := None;
     patch_nome := None;
     patch_phone := None;
     patch_cpf := None;
     patch_birthDate := None;
     patch_role := None;
     patch_isActive := Some true;
     patch_plan := Some plan;
     patch_planExpiresAt := Some expirationDate |}.

(** The branch [if (existingUser)] (lines 120 to 126). *)
Definition update_existing (customer plan : value) (expirationDate : string)
  (existingUser : User) : prog Response :=
  logged <- eval (ToString (get customer "email")) ;;
  console_call "log"
    [ArgString ("Usuário com email " ++ logged
                ++ " já existe. Atualizando assinatura.")%string] ;;
  await (authService_updateUser (id existingUser)
           (subscription_patch plan expirationDate)) ;;
  Return (NextResponse_json true
            "Assinatura de usuário existente foi renovada/atualizada."
            None None None).

(** Its [else] branch (lines 128 to 153). *)
Definition create_new (customer plan : value) (expirationDate : string)
  : prog Response :=
  logged <- eval (ToString (get customer "email")) ;;
  console_call "log"
    [ArgString ("Criando novo usuário para " ++ logged ++ ".")%string] ;;
  let newUserPayload := newUserPayload customer plan expirationDate in
  result <- await (authService_register newUserPayload) ;;
  match (if success result then user result else None) with
  | Some created =>
      logged <- eval (ToString (get customer "email")) ;;
      plan_text <- eval (ToString plan) ;;
      console_call "log"
        [ArgString ("Usuário " ++ logged
                    ++ " criado com sucesso via webhook com plano "
                    ++ plan_text ++ ".")%string] ;;
      sendWelcomeEmail newUserPayload ;;
      Return (NextResponse_json true "Usuário criado com sucesso."
                (Some (id created)) None None)
  | None =>
      console_call "error"
        [ArgString "Falha ao registrar usuário via webhook:";
         ArgMessage (message result)] ;;
      Return (NextResponse_json false
                ("Falha ao registrar usuário: "
                 ++ match message result with
                    | Some m => m
                    | None => "undefined"
                    end)%string
                None None (Some 500))
  end.

(** The body of the [try] block. *)
Definition POST_try (request : Request) : prog Response :=
  body <- eval (json request) ;;
  let webhookData := webhookData_of body in
  if negb (truthy webhookData) || negb (truthy (get webhookData "data")) then
    Return (NextResponse_json false "Payload inválido." None None (Some 400))
  else
    let event := get webhookData "event" in
    let data := get webhookData "data" in
    let customer := get data "customer" in
    let paidAt := get data "paidAt" in
    let product := get data "product" in
    if (strict_eq event "subscription_created" || strict_eq event "subscription_renewed")
       && truthy paidAt
    then
      if negb (truthy customer) || negb (truthy (get customer "email"))
         || negb (truthy (get customer "name"))
      then
        Return (NextResponse_json false "Dados do cliente ausentes." None None (Some 400))
      else
        key <- eval (ToString (get_opt product "name")) ;;
        match planMapping_get key with
        | NoProperty =>
            warned <- eval (ToString (get_opt product "name")) ;;
            console_call "warn"
              [ArgString ("Plano não reconhecido: " ++ dq ++ warned ++ dq
                          ++ ". Verifique o mapeamento.")%string] ;;
            named <- eval (ToString (get_opt product "name")) ;;
            Return (NextResponse_json false
                      ("Plano " ++ dq ++ named ++ dq ++ " não configurado.")%string
                      None None (Some 400))
        | planInfo =>
            let plan := match planInfo with
                        | Entry info => VString (plan info)
                        | _ => VUndefined
                        end in
            let durationInMonths := match planInfo with
                                    | Entry info => Some (durationInMonths info)
                                    | _ => None
                                    end in
            paymentDate <- eval (Date_new paidAt) ;;
            expirationDate <- eval (calculateExpirationDate paymentDate durationInMonths) ;;
            loginResult <- await (authService_login
                                    {| cred_email := get customer "email";
                                       cred_password := "" |}) ;;
            let existingUser := if success loginResult then user loginResult else None in
            match existingUser with
            | Some existingUser => update_existing customer plan expirationDate existingUser
            | None => create_new customer plan expirationDate
            end
        end
    else
      logged <- eval (ToString event) ;;
      console_call "log"
        [ArgString ("Evento '" ++ logged
                    ++ "' recebido, mas não processado (sem data de pagamento ou tipo de evento não relevante).")%string] ;;
      named <- eval (ToString event) ;;
      Return (NextResponse_json true
                ("Evento '" ++ named ++ "' recebido, mas não acionou nenhuma ação.")%string
                None None None).

(** The [catch] block. *)
Definition POST_catch (error : thrown) : prog Response :=
  console_call "error"
    [ArgString "Erro ao processar webhook da Cakto:"; ArgThrown error] ;;
  let errorMessage := match error with
                      | ErrorObject _ m => m
                      | NotAnError => "Erro desconhecido no servidor."
                      end in
  Return (NextResponse_json false "Erro interno do servidor." None
            (Some errorMessage) (Some 500)).

Definition POST (request : Request) : prog Response :=
  try_catch (POST_try request) POST_catch.

(** ** Running a handler against its environment

    The environment answers every call, from a state of its own; a run
    gives what the handler ends with, the environment's last state and the
    calls performed, in order, each with its outcome. *)
Inductive call : Type :=
  | Call {X : Type} (ev : event X) (o : outcome X).

Definition environment (W : Type) : Type :=
  forall X : Type, event X -> W -> outcome X * W.

Fixpoint run {W R : Type} (env : environment W) (p : prog R) (w : W)
  : (thrown + R) * W * list call :=
  match p with
  | Return r => (inr r, w, [])
  | Throw e => (inl e, w, [])
  | Perform ev k =>
      let (o, w') := env _ ev w in
      let '(r, w'', calls) := run env (k o) w' in
      (r, w'', Call ev o :: calls)
  end.

Definition result_of {W R : Type} (r : (thrown + R) * W * list call) : thrown + R :=
  fst (fst r).

Definition calls_of {W R : Type} (r : (thrown + R) * W * list call) : list call :=
  snd r.

(** The calls that reach the account directory, those that write it, and
    those that reach the mail service. *)
Definition is_directory_call (c : call) : bool :=
  match c with
  | Call (authService_login _) _ => true
  | Call (authService_updateUser _ _) _ => true
  | Call (authService_register _) _ => true
  | _ => false
  end.

Definition is_directory_write (c : call) : bool :=
  match c with
  | Call (authService_updateUser _ _) _ => true
  | Call (authService_register _) _ => true
  | _ => false
  end.

Definition is_update (c : call) : bool :=
  match c with
  | Call (authService_updateUser _ _) _ => true
  | _ => false
  end.

Definition is_login (c : call) : bool :=
  match c with
  | Call (authService_login _) _ => true
  | _ => false
  end.

Definition is_register (c : call) : bool :=
  match c with
  | Call (authService_register _) _ => true
  | _ => false
  end.

Definition is_mail_call (c : call) : bool :=
  match c with
  | Call oAuth2Client_getAccessToken _ => true
  | Call (gmail_users_messages_send _ _) _ => true
  | _ => false
  end.

(** The plan and the expiration a directory write carries. *)
Definition written_entitlement (c : call) : option (value * string) :=
  match c with
  | Call (authService_updateUser _ patch) _ =>
      match patch_plan patch, patch_planExpiresAt patch with
      | Some p, Some e => Some (p, e)
      | _, _ => None
      end
  | Call (authService_register payload) _ =>
      Some (user_plan payload, planExpiresAt payload)
  | _ => None
  end.

End Runtime.

Arguments Return {host R} r.
Arguments Throw {host R} e.
Arguments Perform {host R X} ev k.
Arguments Call {host X} ev o.

Notation "x <- p ;; q" := (bind p (fun x => q))
  (at level 61, p at next level, right associativity).
Notation "p ;; q" := (bind p (fun _ => q))
  (at level 61, right associativity).

(** ** The vocabulary of the specification *)

(** The calendar date of a time: year, month (0 to 11), day of the month. *)
Definition civil_of_time (t : Z) : Z * Z * Z :=
  (JSDate.YearFromTime t, JSDate.MonthFromTime t, JSDate.DateFromTime t).

(** [spec.md], 4.2: adding [n] calendar months keeps the day of the month
    where the resulting month has it.  Where it has not, the rule is the
    one of [setMonth]: the days in excess run into the following month. *)
Definition months_after (date : Z * Z * Z) (n : Z) : Z * Z * Z :=
  let '(y, m, d) := date in
  let y' := y + (m + n) / 12 in
  let m' := (m + n) mod 12 in
  if d <=? JSDate.DaysInMonth y' m' then (y', m', d)
  else (y', m' + 1, d - JSDate.DaysInMonth y' m').

(** 1 for a leap year, 0 for a common year. *)
Definition leap_of (y : Z) : Z := if JSDate.DaysInYear y =? 366 then 1 else 0.

(** The digit a character stands for. *)
Definition digit_value (c : ascii) : Z := Z.of_nat (nat_of_ascii c) - 48.

(** [sub] occurs in [s]. *)
Definition contains (s sub : string) : Prop :=
  exists before after : string, s = (before ++ sub ++ after)%string.

Section Vocabulary.

Context {host : Host}.

(** The event types the handler acts on. *)
Definition recognized (event : value) : bool :=
  strict_eq event "subscription_created" || strict_eq event "subscription_renewed".

(** An accepted event ([spec.md], 4.3, rules 1 and 2): the body carries
    [data], the event type is recognized, [paidAt] is present and is the
    date [t] (far enough from the ends of the range of [Date] for a year
    and more to fit), the customer has an email and a name, the email can
    be printed, and the product name is the key of [info] in the table. *)
Record accepted_event (body : value) (t : Z) (info : PlanInfo) : Prop := {
  acc_data : truthy (get (webhookData_of body) "data") = true;
  acc_event : recognized (get (webhookData_of body) "event") = true;
  acc_paidAt_present :
    truthy (get (get (webhookData_of body) "data") "paidAt") = true;
  acc_paidAt :
    Date_new (get (get (webhookData_of body) "data") "paidAt") = inr (Some t);
  acc_paidAt_range : Z.abs t <= 8000000000000000;
  acc_email :
    truthy (get (get (get (webhookData_of body) "data") "customer") "email") = true;
  acc_email_text :
    exists s, ToString (get (get (get (webhookData_of body) "data") "customer") "email")
              = inr s;
  acc_name :
    truthy (get (get (get (webhookData_of body) "data") "customer") "name") = true;
  acc_product :
    exists key,
      ToString (get_opt (get (get (webhookData_of body) "data") "product") "name")
      = inr key
      /\ lookup key planMapping = Some info
}.

(** What [d.setMonth(d.getMonth() + n)] leaves in a date of time value
    [t], before [TimeClip] checks the range. *)
Definition shifted (t n : Z) : Z :=
  UTC (JSDate.MakeDate
         (JSDate.MakeDay (JSDate.YearFromTime (LocalTime t))
                         (JSDate.MonthFromTime (LocalTime t) + n)
                         (JSDate.DateFromTime (LocalTime t)))
         (JSDate.TimeWithinDay (LocalTime t))).

(** The customer of a request body. *)
Definition customer_of (body : value) : value :=
  get (get (webhookData_of body) "data") "customer".

(** A login or a registration that gives the handler a user. *)
Definition gives_user (o : outcome AuthResult) : option User :=
  match o with
  | Resolved r => if success r then user r else None
  | Rejected _ => None
  end.

End Vocabulary.

(** ** The ways an accepted event is reconciled

    ([spec.md], 4.3, rules 3 and 4.)  What a run of the handler on an
    accepted event ends with and the calls it makes, case by case; that
    every run is one of these cases is [POST_reconciles] below. *)
Section Reconciliation.

Context {host : Host} {W : Type}.
Variable env : environment W.
Variable body : value.
Variable t : Z.
Variable info : PlanInfo.

Definition login_call (o : outcome AuthResult) : call :=
  Call (authService_login
          {| cred_email := get (customer_of body) "email"; cred_password := "" |}) o.

Definition update_call (existingUser : User) (o : outcome unit) : call :=
  Call (authService_updateUser (id existingUser)
          (subscription_patch (VString (plan info))
             (iso_format (shifted t (durationInMonths info))))) o.

Definition created_payload : NewUser :=
  newUserPayload (customer_of body) (VString (plan info))
    (iso_format (shifted t (durationInMonths info))).

Definition register_call (o : outcome AuthResult) : call :=
  Call (authService_register created_payload) o.

Definition console_entry (method : string) (args : list console_arg)
  (o : outcome unit) : call :=
  Call (console method args) o.

Definition server_error (e : thrown) : Response :=
  NextResponse_json false "Erro interno do servidor." None
    (Some match e with
          | ErrorObject _ m => m
          | NotAnError => "Erro desconhecido no servidor."
          end)
    (Some 500).

Inductive reconciled : thrown + Response -> list call -> Prop :=
  | login_rejected (e : thrown) args o :
      reconciled (inr (server_error e))
        [login_call (Rejected e); console_entry "error" args o]
  | account_updated r existingUser args o x :
      gives_user (Resolved r) = Some existingUser ->
      reconciled
        (inr (NextResponse_json true
                "Assinatura de usuário existente foi renovada/atualizada."
                None None None))
        [login_call (Resolved r); console_entry "log" args o;
         update_call existingUser (Resolved x)]
  | update_rejected r existingUser args o e args' o' :
      gives_user (Resolved r) = Some existingUser ->
      reconciled (inr (server_error e))
        [login_call (Resolved r); console_entry "log" args o;
         update_call existingUser (Rejected e); console_entry "error" args' o']
  | account_created r args o r' created args' o' w w' mail :
      gives_user (Resolved r) = None ->
      gives_user (Resolved r') = Some created ->
      run env (sendWelcomeEmail created_payload) w = (inr tt, w', mail) ->
      reconciled
        (inr (NextResponse_json true "Usuário criado com sucesso."
                (Some (id created)) None None))
        ([login_call (Resolved r); console_entry "log" args o;
          register_call (Resolved r'); console_entry "log" args' o'] ++ mail)%list
  | creation_failed r args o r' args' o' :
      gives_user (Resolved r) = None ->
      gives_user (Resolved r') = None ->
      reconciled
        (inr (NextResponse_json false
                ("Falha ao registrar usuário: "
                 ++ match message r' with
                    | Some m => m
                    | None => "undefined"
                    end)%string
                None None (Some 500)))
        [login_call (Resolved r); console_entry "log" args o;
         register_call (Resolved r'); console_entry "error" args' o']
  | creation_rejected r args o e args' o' :
      gives_user (Resolved r) = None ->
      reconciled (inr (server_error e))
        [login_call (Resolved r); console_entry "log" args o;
         register_call (Rejected e); console_entry "error" args' o'].

End Reconciliation.

(** What a call is, read off a trace entry. *)
Section Entries.

Context {host : Host}.

Definition login_outcome (c : call) : option (outcome AuthResult) :=
  match c with
  | Call ev o =>
      match ev in event X return outcome X -> option (outcome AuthResult) with
      | authService_login _ => fun o => Some o
      | _ => fun _ => None
      end o
  end.

Definition registration (c : call) : option (NewUser * outcome AuthResult) :=
  match c with
  | Call ev o =>
      match ev in event X return outcome X -> option (NewUser * outcome AuthResult) with
      | authService_register payload => fun o => Some (payload, o)
      | _ => fun _ => None
      end o
  end.

Definition sent_message (c : call) : option (string * string) :=
  match c with
  | Call (gmail_users_messages_send userId raw) _ => Some (userId, raw)
  | _ => None
  end.

End Entries.

(** ** Two hosts to run examples on

    Numbers are the integers; the time zone is UTC.  [mail_host] has the
    Gmail credentials configured, [utc_host] has no environment variable
    set. *)
Definition utc_host : Host :=
  {| number := Z;
     number_truthy := fun n => negb (n =? 0);
     Number_toString := fun n => NilZero.string_of_int (Z.to_int n);
     number_toInteger := fun n => n;
     LocalTZA := 0;
     Date_parse_fallback := fun _ => None;
     process_env := fun _ => None |}.

Definition mail_host : Host :=
  {| number := Z;
     number_truthy := fun n => negb (n =? 0);
     Number_toString := fun n => NilZero.string_of_int (Z.to_int n);
     number_toInteger := fun n => n;
     LocalTZA := 0;
     Date_parse_fallback := fun _ => None;
     process_env := fun name =>
       if (name =? "G_CLIENT_ID")%string then Some "client-id"
       else if (name =? "G_CLIENT_SECRET")%string then Some "client-secret"
       else if (name =? "G_REFRESH_TOKEN")%string then Some "refresh-token"
       else if (name =? "EMAIL_FROM")%string then Some "noreply@enempro.example"
       else None |}.

(** ** Example requests and directories *)
Section Examples.

Context {host : Host}.

(** A request body of the documented shape ([spec.md], 6). *)
Definition example_body (event paidAt product : string) : value :=
  VObject
    [ ("event", VString event);
      ("data",
       VObject
         [ ("customer",
            VObject [ ("email", VString "ana@example.com");
                      ("name", VString "Ana") ]);
           ("paidAt", VString paidAt);
           ("product", VObject [ ("name", VString product) ]) ]) ].

Definition renewal_body : value :=
  example_body "subscription_renewed" "2024-01-15T00:00:00Z" "Plano Mensal".

(** A directory that answers every login with [login] and every
    registration with [registration], and lets every other call succeed. *)
Definition example_directory (login registration : AuthResult) : environment unit :=
  fun X ev w =>
    match ev in event X return outcome X * unit with
    | authService_login _ => (Resolved login, w)
    | authService_register _ => (Resolved registration, w)
    | authService_updateUser _ _ => (Resolved tt, w)
    | oAuth2Client_getAccessToken => (Resolved tt, w)
    | gmail_users_messages_send _ _ => (Resolved tt, w)
    | console _ _ => (Resolved tt, w)
    end.

End Examples.

Definition mensal : PlanInfo := {| plan := "mensal"; durationInMonths := 1 |}.

Definition found : AuthResult :=
  {| success := true; user := Some {| id := "u1" |}; message := None |}.

Definition not_found : AuthResult :=
  {| success := false; user := None; message := Some "Credenciais inválidas" |}.

Definition registered : AuthResult :=
  {| success := true; user := Some {| id := "u2" |}; message := None |}.

Definition conflict : AuthResult :=
  {| success := false; user := None; message := Some "E-mail já cadastrado" |}.

(** * Facts about time values and dates *)

Import JSDate.

Ltac divs := Z.to_euclidean_division_equations; lia.

Lemma DayFromYear_next y : DayFromYear (y + 1) = DayFromYear y + DaysInYear y.
Proof.
  unfold DayFromYear, DaysInYear.
  destruct (Z.eqb_spec (y mod 4) 0), (Z.eqb_spec (y mod 100) 0), (Z.eqb_spec (y mod 400) 0); cbn [negb]; divs.
Qed.

Lemma DayFromYear_lt y1 y2 : y1 < y2 -> DayFromYear y1 < DayFromYear y2.
Proof. unfold DayFromYear. intros. divs. Qed.

Lemma YearFromDay_spec d :
  DayFromYear (YearFromDay d) <= d < DayFromYear (YearFromDay d + 1).
Proof.
  unfold YearFromDay.
  set (y0 := 1970 + 400 * d / 146097).
  assert (Hlo : DayFromYear (y0 - 1) <= d) by (unfold DayFromYear, y0; divs).
  assert (Hhi : d < DayFromYear (y0 + 2)) by (unfold DayFromYear, y0; divs).
  destruct (Z.leb_spec (DayFromYear (y0 + 1)) d).
  - replace (y0 + 1 + 1) with (y0 + 2) by lia. lia.
  - destruct (Z.leb_spec (DayFromYear y0) d).
    + lia.
    + replace (y0 - 1 + 1) with y0 by lia. lia.
Qed.

Lemma YearFromDay_unique d y :
  DayFromYear y <= d < DayFromYear (y + 1) -> YearFromDay d = y.
Proof.
  intros H. pose proof (YearFromDay_spec d) as S.
  destruct (Z.lt_trichotomy (YearFromDay d) y) as [L | [E | G]]; auto.
  - assert (YearFromDay d + 1 <= y) by lia.
    assert (DayFromYear (YearFromDay d + 1) <= DayFromYear y).
    { destruct (Z.eq_dec (YearFromDay d + 1) y) as [->|]; [lia|]. apply Z.lt_le_incl, DayFromYear_lt. lia. }
    lia.
  - assert (DayFromYear (y + 1) <= DayFromYear (YearFromDay d)).
    { destruct (Z.eq_dec (y + 1) (YearFromDay d)) as [->|]; [lia|]. apply Z.lt_le_incl, DayFromYear_lt. lia. }
    lia.
Qed.

(** [YearFromTime t] is the year ECMA-262 defines: the largest [y] with
    [TimeFromYear y <= t]. *)
Lemma YearFromTime_spec t :
  TimeFromYear (YearFromTime t) <= t
  /\ forall y, TimeFromYear y <= t -> y <= YearFromTime t.
Proof.
  unfold YearFromTime, TimeFromYear.
  pose proof (YearFromDay_spec (Day t)) as S.
  split.
  - unfold Day, msPerDay in *. divs.
  - intros y H.
    destruct (Z_lt_le_dec (YearFromDay (Day t)) y) as [L | L]; [| exact L].
    assert (DayFromYear (YearFromDay (Day t) + 1) <= DayFromYear y).
    { destruct (Z.eq_dec (YearFromDay (Day t) + 1) y) as [-> | N]; [lia |].
      apply Z.lt_le_incl, DayFromYear_lt. lia. }
    unfold Day, msPerDay in *. divs.
Qed.

Lemma DaysInYear_cases y : DaysInYear y = 365 \/ DaysInYear y = 366.
Proof.
  unfold DaysInYear.
  destruct (y mod 4 =? 0), (y mod 100 =? 0), (y mod 400 =? 0); cbn; auto.
Qed.

Lemma DayWithinYear_range t :
  0 <= DayWithinYear t < DaysInYear (YearFromTime t).
Proof.
  unfold DayWithinYear, YearFromTime.
  pose proof (YearFromDay_spec (Day t)) as S.
  rewrite DayFromYear_next in S. lia.
Qed.

Lemma InLeapYear_DaysInYear t : DaysInYear (YearFromTime t) = 365 + InLeapYear t.
Proof.
  unfold InLeapYear.
  destruct (DaysInYear_cases (YearFromTime t)) as [E | E]; rewrite E; reflexivity.
Qed.

Lemma MonthFromTime_range t : 0 <= MonthFromTime t <= 11.
Proof.
  unfold MonthFromTime.
  repeat match goal with |- context [if ?b then _ else _] => destruct b end; lia.
Qed.

Lemma month_cases m :
  0 <= m <= 11 ->
  m = 0 \/ m = 1 \/ m = 2 \/ m = 3 \/ m = 4 \/ m = 5 \/ m = 6 \/ m = 7
  \/ m = 8 \/ m = 9 \/ m = 10 \/ m = 11.
Proof. lia. Qed.

Ltac each_month H :=
  apply month_cases in H;
  repeat (destruct H as [H | H]).

Lemma DayWithinYear_decompose t :
  DayWithinYear t
  = DaysBeforeMonth (InLeapYear t) (MonthFromTime t) + DateFromTime t - 1.
Proof.
  unfold DateFromTime.
  pose proof (MonthFromTime_range t) as R.
  each_month R; rewrite R; unfold DaysBeforeMonth; cbv iota beta.
  all: lia.
Qed.

Lemma InLeapYear_cases t : InLeapYear t = 0 \/ InLeapYear t = 1.
Proof. unfold InLeapYear. destruct (DaysInYear (YearFromTime t) =? 366); auto. Qed.

Lemma DaysInMonth_Feb t :
  DaysInMonth (YearFromTime t) 1 = 28 + InLeapYear t.
Proof.
  unfold DaysInMonth, InLeapYear.
  destruct (DaysInYear (YearFromTime t) =? 366); reflexivity.
Qed.

Lemma MonthFromTime_bounds t :
  DaysBeforeMonth (InLeapYear t) (MonthFromTime t) <= DayWithinYear t
  < DaysBeforeMonth (InLeapYear t) (MonthFromTime t)
    + DaysInMonth (YearFromTime t) (MonthFromTime t).
Proof.
  pose proof (DayWithinYear_range t) as R.
  rewrite InLeapYear_DaysInYear in R.
  pose proof (DaysInMonth_Feb t) as F.
  pose proof (InLeapYear_cases t) as L.
  unfold MonthFromTime.
  repeat match goal with
         | |- context [if ?a <? ?b then _ else _] => destruct (Z.ltb_spec a b)
         end;
  try rewrite F; unfold DaysBeforeMonth, DaysInMonth; cbv iota beta; lia.
Qed.

Lemma DateFromTime_range t :
  1 <= DateFromTime t <= DaysInMonth (YearFromTime t) (MonthFromTime t).
Proof.
  pose proof (MonthFromTime_bounds t). pose proof (DayWithinYear_decompose t). lia.
Qed.

Lemma MakeDate_split day time :
  0 <= time < msPerDay ->
  Day (MakeDate day time) = day /\ TimeWithinDay (MakeDate day time) = time.
Proof.
  unfold Day, TimeWithinDay, MakeDate, msPerDay. intros. split; divs.
Qed.

Lemma TimeWithinDay_range t : 0 <= TimeWithinDay t < msPerDay.
Proof. unfold TimeWithinDay, msPerDay. divs. Qed.

Lemma MakeDate_Day t : MakeDate (Day t) (TimeWithinDay t) = t.
Proof. unfold MakeDate, Day, TimeWithinDay, msPerDay. divs. Qed.

Lemma MakeDay_in_range y mn d :
  0 <= mn <= 11 ->
  MakeDay y mn d = DayFromYear y + DaysBeforeMonth (leap_of y) mn + d - 1.
Proof.
  intros R. unfold MakeDay, leap_of.
  replace (mn / 12) with 0 by divs. replace (mn mod 12) with mn by divs.
  rewrite Z.add_0_r. reflexivity.
Qed.

Lemma civil_of_MakeDay y mn d t :
  0 <= mn <= 11 -> 1 <= d <= DaysInMonth y mn ->
  Day t = MakeDay y mn d ->
  YearFromTime t = y /\ MonthFromTime t = mn /\ DateFromTime t = d.
Proof.
  intros Rm Rd E. rewrite MakeDay_in_range in E by assumption.
  assert (L : leap_of y = 0 \/ leap_of y = 1)
    by (unfold leap_of; destruct (DaysInYear y =? 366); auto).
  assert (DY : DaysInYear y = 365 + leap_of y)
    by (unfold leap_of; destruct (DaysInYear_cases y) as [H | H]; rewrite H; reflexivity).
  assert (Feb : DaysInMonth y 1 = 28 + leap_of y)
    by (unfold DaysInMonth, leap_of; destruct (DaysInYear y =? 366); reflexivity).
  assert (Y : YearFromTime t = y).
  { apply YearFromDay_unique. rewrite DayFromYear_next, DY, E.
    each_month Rm; subst mn; try rewrite Feb in Rd;
      unfold DaysBeforeMonth, DaysInMonth in *; cbv iota beta in *; lia. }
  assert (W : DayWithinYear t = DaysBeforeMonth (leap_of y) mn + d - 1)
    by (unfold DayWithinYear; rewrite Y; lia).
  assert (IL : InLeapYear t = leap_of y) by (unfold InLeapYear, leap_of; rewrite Y; reflexivity).
  assert (M : MonthFromTime t = mn).
  { unfold MonthFromTime. rewrite W, IL.
    each_month Rm; subst mn; try rewrite Feb in Rd;
      unfold DaysBeforeMonth, DaysInMonth in *; cbv iota beta in *;
      repeat match goal with
             | |- context [if ?a <? ?b then _ else _] => destruct (Z.ltb_spec a b)
             end; lia. }
  split; [assumption | split; [assumption |]].
  pose proof (DayWithinYear_decompose t) as D. rewrite M, IL in D. lia.
Qed.

Lemma DaysInMonth_bounds y mn : 28 <= DaysInMonth y mn <= 31.
Proof.
  unfold DaysInMonth.
  destruct mn as [|p|p]; try lia.
  repeat (destruct p as [p|p|]; try lia); destruct (DaysInYear y =? 366); lia.
Qed.

Lemma MakeDay_normal y month d :
  MakeDay y month d
  = DayFromYear (y + month / 12)
    + DaysBeforeMonth (leap_of (y + month / 12)) (month mod 12) + d - 1.
Proof. reflexivity. Qed.

Lemma DaysBeforeMonth_next y mn :
  0 <= mn <= 10 ->
  DaysBeforeMonth (leap_of y) (mn + 1)
  = DaysBeforeMonth (leap_of y) mn + DaysInMonth y mn.
Proof.
  intros R.
  assert (Feb : DaysInMonth y 1 = 28 + leap_of y)
    by (unfold DaysInMonth, leap_of; destruct (DaysInYear y =? 366); reflexivity).
  assert (mn = 0 \/ mn = 1 \/ mn = 2 \/ mn = 3 \/ mn = 4 \/ mn = 5 \/ mn = 6
          \/ mn = 7 \/ mn = 8 \/ mn = 9 \/ mn = 10) as C by lia.
  repeat (destruct C as [C | C]); subst mn; try rewrite Feb;
    unfold DaysBeforeMonth, DaysInMonth; cbv iota beta;
    change (0+1) with 1; change (1+1) with 2; change (2+1) with 3; change (3+1) with 4;
    change (4+1) with 5; change (5+1) with 6; change (6+1) with 7; change (7+1) with 8;
    change (8+1) with 9; change (9+1) with 10; change (10+1) with 11; cbv iota beta; lia.
Qed.

(** The calendar date [MakeDay] lands on, for a day of the month between 1
    and 31. *)
Lemma civil_of_MakeDay_months_after y m d n t :
  0 <= m <= 11 -> 1 <= d <= 31 ->
  Day t = MakeDay y (m + n) d ->
  civil_of_time t = months_after (y, m, d) n.
Proof.
  intros Rm Rd E. rewrite MakeDay_normal in E.
  unfold months_after, civil_of_time.
  set (y' := y + (m + n) / 12) in *. set (m' := (m + n) mod 12) in *.
  assert (Rm' : 0 <= m' <= 11) by (unfold m'; divs).
  destruct (Z.leb_spec d (DaysInMonth y' m')) as [Le | Gt].
  - destruct (civil_of_MakeDay y' m' d t) as (-> & -> & ->); auto; try lia.
    rewrite MakeDay_in_range by assumption. exact E.
  - pose proof (DaysInMonth_bounds y' m') as B.
    assert (m' <> 11) by (intros ->; unfold DaysInMonth in Gt; cbv iota beta in Gt; lia).
    destruct (civil_of_MakeDay y' (m' + 1) (d - DaysInMonth y' m') t) as (-> & -> & ->);
      auto; try lia.
    + split; [lia|]. 
      assert (DaysInMonth y' (m' + 1) = 31).
      { each_month Rm'; rewrite Rm' in *; try lia;
          unfold DaysInMonth in *; cbv iota beta in *; try reflexivity; try lia. 
        all: destruct (DaysInYear y' =? 366); lia. }
      lia.
    + rewrite MakeDay_in_range by lia. rewrite DaysBeforeMonth_next by lia. lia.
Qed.

Section DateObject.

Context {host : Host}.

Lemma LocalTime_UTC x : LocalTime (UTC x) = x.
Proof. unfold LocalTime, UTC. lia. Qed.

Lemma UTC_LocalTime x : UTC (LocalTime x) = x.
Proof. unfold LocalTime, UTC. lia. Qed.

Lemma TimeClip_in_range t : Z.abs t <= maxTime -> TimeClip t = Some t.
Proof.
  unfold TimeClip. intros H. destruct (Z.leb_spec (Z.abs t) maxTime); [reflexivity | lia].
Qed.

Lemma setMonth_getMonth t n :
  setMonth (Some t) (num_add (getMonth (Some t)) (Some n)) = TimeClip (shifted t n).
Proof. lazy beta iota zeta delta [setMonth getMonth num_add shifted]. reflexivity. Qed.

Lemma shifted_calendar t n :
  civil_of_time (LocalTime (shifted t n))
  = months_after (civil_of_time (LocalTime t)) n
  /\ TimeWithinDay (LocalTime (shifted t n)) = TimeWithinDay (LocalTime t).
Proof.
  unfold shifted. rewrite LocalTime_UTC.
  set (lt := LocalTime t).
  destruct (MakeDate_split
              (MakeDay (YearFromTime lt) (MonthFromTime lt + n) (DateFromTime lt))
              (TimeWithinDay lt) (TimeWithinDay_range lt)) as [D T].
  split; [| exact T].
  unfold civil_of_time at 2.
  apply civil_of_MakeDay_months_after.
  - apply MonthFromTime_range.
  - pose proof (DateFromTime_range lt). pose proof (DaysInMonth_bounds (YearFromTime lt) (MonthFromTime lt)). lia.
  - exact D.
Qed.

Lemma Day_decompose t :
  Day t = MakeDay (YearFromTime t) (MonthFromTime t) (DateFromTime t).
Proof.
  rewrite MakeDay_in_range by apply MonthFromTime_range.
  pose proof (DayWithinYear_decompose t) as D.
  unfold DayWithinYear in D.
  replace (leap_of (YearFromTime t)) with (InLeapYear t) by reflexivity. lia.
Qed.

Lemma shifted_0 t : shifted t 0 = t.
Proof.
  unfold shifted. rewrite Z.add_0_r, <- Day_decompose, MakeDate_Day. apply UTC_LocalTime.
Qed.

Lemma DaysBeforeMonth_bounds l mn : 0 <= l <= 1 -> 0 <= DaysBeforeMonth l mn <= 335.
Proof.
  intros. unfold DaysBeforeMonth.
  destruct mn as [|p|p]; try lia.
  repeat (destruct p as [p|p|]; try lia).
Qed.

Lemma leap_of_range y : 0 <= leap_of y <= 1.
Proof. unfold leap_of. destruct (DaysInYear y =? 366); lia. Qed.

Lemma shifted_near t n :
  0 <= n <= 12 ->
  - (335 * msPerDay) <= shifted t n - t <= 701 * msPerDay.
Proof.
  intros Rn. unfold shifted, UTC.
  assert (E : LocalTime t = t + LocalTZA) by reflexivity.
  set (lt := LocalTime t) in *.
  pose proof (MakeDate_Day lt) as E1.
  pose proof (Day_decompose lt) as E2.
  pose proof (MonthFromTime_range lt) as Rm.
  rewrite MakeDay_in_range in E2 by assumption.
  rewrite MakeDay_normal.
  set (m := MonthFromTime lt) in *. set (y := YearFromTime lt) in *.
  pose proof (DaysBeforeMonth_bounds (leap_of y) m (leap_of_range y)).
  pose proof (DaysBeforeMonth_bounds (leap_of (y + (m + n) / 12)) ((m + n) mod 12)
                (leap_of_range _)).
  assert (C : (m + n) / 12 = 0 \/ (m + n) / 12 = 1) by divs.
  pose proof (DayFromYear_next y) as N. pose proof (DaysInYear_cases y).
  unfold MakeDate, msPerDay in *.
  destruct C as [C | C]; rewrite C in *; [rewrite Z.add_0_r in * |]; lia.
Qed.

Lemma shifted_in_range t n :
  Z.abs t <= 8000000000000000 -> 0 <= n <= 12 -> Z.abs (shifted t n) <= maxTime.
Proof.
  intros Rt Rn. pose proof (shifted_near t n Rn). unfold maxTime, msPerDay in *. lia.
Qed.

Lemma setMonth_in_range t n :
  Z.abs t <= 8000000000000000 -> 0 <= n <= 12 ->
  setMonth (Some t) (num_add (getMonth (Some t)) (Some n)) = Some (shifted t n).
Proof.
  intros Rt Rn. rewrite setMonth_getMonth. apply TimeClip_in_range.
  apply shifted_in_range; assumption.
Qed.

End DateObject.

(** ** [Date.parse] reads back what [toISOString] prints *)

Lemma append_assoc (a b c : string) : ((a ++ b) ++ c = a ++ b ++ c)%string.
Proof. induction a as [| x a IH]; cbn; [reflexivity | now rewrite IH]. Qed.

Lemma digit_facts v :
  0 <= v <= 9 ->
  is_digit (digit v) = true /\ digit_value (digit v) = v
  /\ digit v <> "+"%char /\ digit v <> "-"%char.
Proof.
  intros R.
  assert (C : v = 0 \/ v = 1 \/ v = 2 \/ v = 3 \/ v = 4 \/ v = 5 \/ v = 6 \/ v = 7
              \/ v = 8 \/ v = 9) by lia.
  repeat (destruct C as [C | C]); subst v; vm_compute; repeat split; discriminate.
Qed.

Lemma read_digits_from_more n :
  forall acc s a c r,
    read_digits_from n acc s = Some (a, String c r) ->
    is_digit c = true ->
    read_digits_from (S n) acc s = Some (10 * a + digit_value c, r).
Proof.
  induction n as [| n IH]; intros acc s a c r E D.
  - cbn in E. injection E as -> ->. cbn [read_digits_from]. rewrite D. reflexivity.
  - destruct s as [| c0 r0]; [discriminate |].
    cbn [read_digits_from] in E.
    change (read_digits_from (S (S n)) acc (String c0 r0))
      with (if is_digit c0
            then read_digits_from (S n) (10 * acc + (Z.of_nat (nat_of_ascii c0) - 48)) r0
            else None).
    destruct (is_digit c0); [| discriminate].
    apply IH; assumption.
Qed.

Lemma read_digits_from_pad n :
  forall v acc rest,
    0 <= v < 10 ^ Z.of_nat n ->
    read_digits_from n acc (pad n v ++ rest) = Some (acc * 10 ^ Z.of_nat n + v, rest).
Proof.
  induction n as [| n IH]; intros v acc rest R.
  - cbn in *. f_equal. f_equal. lia.
  - rewrite Nat2Z.inj_succ, Z.pow_succ_r in * by lia.
    cbn [pad]. rewrite append_assoc. cbn [append].
    destruct (digit_facts (v mod 10)) as (D & V & _); [divs |].
    rewrite (read_digits_from_more n acc _ (acc * 10 ^ Z.of_nat n + v / 10)
               (digit (v mod 10)) rest).
    + f_equal. f_equal. rewrite V. divs.
    + apply IH. divs.
    + exact D.
Qed.

Lemma read_digits_pad n v rest :
  0 <= v < 10 ^ Z.of_nat n ->
  read_digits n (pad n v ++ rest) = Some (v, rest).
Proof.
  intros R. unfold read_digits. rewrite read_digits_from_pad by assumption.
  reflexivity.
Qed.

Lemma YearFromTime_bounds t :
  Z.abs t <= maxTime -> -271821 <= YearFromTime t <= 275760.
Proof.
  intros R. unfold YearFromTime.
  pose proof (YearFromDay_spec (Day t)) as S.
  assert (D : -100000000 <= Day t <= 100000000)
    by (unfold Day, msPerDay, maxTime in *; divs).
  split.
  - destruct (Z_lt_le_dec (YearFromDay (Day t)) (-271821)) as [L | L]; [| lia].
    assert (DayFromYear (YearFromDay (Day t) + 1) <= DayFromYear (-271821)).
    { destruct (Z.eq_dec (YearFromDay (Day t) + 1) (-271821)) as [-> | N]; [lia |].
      apply Z.lt_le_incl, DayFromYear_lt. lia. }
    assert (DayFromYear (-271821) < -100000000) by (vm_compute; reflexivity).
    lia.
  - destruct (Z_lt_le_dec 275760 (YearFromDay (Day t))) as [L | L]; [| lia].
    assert (DayFromYear 275761 <= DayFromYear (YearFromDay (Day t))).
    { destruct (Z.eq_dec 275761 (YearFromDay (Day t))) as [<- | N]; [lia |].
      apply Z.lt_le_incl, DayFromYear_lt. lia. }
    assert (100000000 < DayFromYear 275761) by (vm_compute; reflexivity).
    lia.
Qed.

Lemma MakeTime_fields t :
  MakeTime (HourFromTime t) (MinFromTime t) (SecFromTime t) (msFromTime t)
  = TimeWithinDay t.
Proof.
  unfold MakeTime, HourFromTime, MinFromTime, SecFromTime, msFromTime, TimeWithinDay,
    msPerHour, msPerMinute, msPerSecond, msPerDay.
  divs.
Qed.

Lemma time_fields_range t :
  0 <= HourFromTime t <= 23 /\ 0 <= MinFromTime t <= 59
  /\ 0 <= SecFromTime t <= 59 /\ 0 <= msFromTime t <= 999.
Proof.
  unfold HourFromTime, MinFromTime, SecFromTime, msFromTime, msPerSecond.
  repeat split; divs.
Qed.

Lemma read_year_iso_year y rest :
  -999999 <= y <= 999999 ->
  read_year (iso_year y ++ rest) = Some (y, rest).
Proof.
  intros R. unfold iso_year.
  destruct (Z.leb_spec 0 y) as [P | N]; cbn [andb].
  - destruct (Z.leb_spec y 9999) as [S | B].
    + change (pad 4 y) with (pad 3 (y / 10) ++ String (digit (y mod 10)) "").
      pose proof (read_digits_pad 4 y rest) as E.
      change (pad 4 y) with (pad 3 (y / 10) ++ String (digit (y mod 10)) "") in E.
      revert E.
      change (pad 3 (y / 10))
        with ((("" ++ String (digit (y / 10 / 10 / 10 mod 10)) "")
               ++ String (digit (y / 10 / 10 mod 10)) "")
              ++ String (digit (y / 10 mod 10)) "").
      cbn [append].
      destruct (digit_facts (y / 10 / 10 / 10 mod 10)) as (_ & _ & NP & NM); [divs |].
      intros E. unfold read_year.
      destruct (digit (y / 10 / 10 / 10 mod 10)) as [b0 b1 b2 b3 b4 b5 b6 b7] eqn:Dg.
      rewrite <- E by (change (10 ^ Z.of_nat 4) with 10000; lia).
      destruct b0, b1, b2, b3, b4, b5, b6, b7; try reflexivity; congruence.
    + destruct (Z.ltb_spec y 0); [lia |].
      cbn [append]. unfold read_year.
      rewrite Z.abs_eq by lia.
      apply read_digits_pad. change (10 ^ Z.of_nat 6) with 1000000. lia.
  - destruct (Z.ltb_spec y 0); [| lia].
    cbn [append]. unfold read_year.
    rewrite read_digits_pad by (change (10 ^ Z.of_nat 6) with 1000000; lia).
    destruct (Z.eqb_spec (Z.abs y) 0); [lia |].
    f_equal. f_equal. lia.
Qed.

Lemma read_date_iso y mo d rest :
  -999999 <= y <= 999999 -> 0 <= mo < 100 -> 0 <= d < 100 ->
  read_date (iso_year y ++ "-" ++ pad 2 mo ++ "-" ++ pad 2 d ++ rest)
  = Some (y, mo, d, rest).
Proof.
  intros Ry Rm Rd. unfold read_date.
  rewrite read_year_iso_year by assumption. cbn [append].
  rewrite read_digits_pad by (change (10 ^ Z.of_nat 2) with 100; lia).
  rewrite read_digits_pad by (change (10 ^ Z.of_nat 2) with 100; lia).
  reflexivity.
Qed.

Lemma read_time_iso h mi s ms rest :
  0 <= h <= 23 -> 0 <= mi <= 59 -> 0 <= s <= 59 -> 0 <= ms <= 999 ->
  read_time (pad 2 h ++ ":" ++ pad 2 mi ++ ":" ++ pad 2 s ++ "." ++ pad 3 ms ++ rest)
  = Some (MakeTime h mi s ms, rest).
Proof.
  intros Rh Rmi Rs Rms. unfold read_time.
  rewrite read_digits_pad by (change (10 ^ Z.of_nat 2) with 100; lia). cbn [append].
  rewrite read_digits_pad by (change (10 ^ Z.of_nat 2) with 100; lia).
  rewrite read_digits_pad by (change (10 ^ Z.of_nat 2) with 100; lia).
  rewrite read_digits_pad by (change (10 ^ Z.of_nat 3) with 1000; lia).
  destruct (Z.leb_spec h 24); [| lia]. destruct (Z.leb_spec mi 59); [| lia].
  destruct (Z.leb_spec s 59); [| lia]. destruct (Z.ltb_spec h 24); [| lia].
  reflexivity.
Qed.

Section RoundTrip.

Context {host : Host}.

(** [Date.parse] reads back what [toISOString] prints. *)
Lemma Date_parse_iso_format t :
  Z.abs t <= maxTime -> Date_parse (iso_format t) = Some t.
Proof.
  intros R. unfold Date_parse, Date_parse_iso, iso_format.
  pose proof (YearFromTime_bounds t R) as Ry.
  pose proof (MonthFromTime_range t) as Rm.
  pose proof (DateFromTime_range t) as Rd.
  pose proof (DaysInMonth_bounds (YearFromTime t) (MonthFromTime t)) as Rdim.
  destruct (time_fields_range t) as (Rh & Rmi & Rs & Rms).
  rewrite read_date_iso by lia.
  replace (MonthFromTime t + 1 - 1) with (MonthFromTime t) by lia.
  destruct (Z.leb_spec 1 (MonthFromTime t + 1)); [| lia].
  destruct (Z.leb_spec (MonthFromTime t + 1) 12); [| lia].
  destruct (Z.leb_spec 1 (DateFromTime t)); [| lia].
  destruct (Z.leb_spec (DateFromTime t) (DaysInMonth (YearFromTime t) (MonthFromTime t)));
    [| lia].
  cbn [andb append].
  match goal with
  | |- context [read_time ?s] =>
      replace (read_time s)
        with (Some (MakeTime (HourFromTime t) (MinFromTime t) (SecFromTime t)
                      (msFromTime t), "Z"))
        by (symmetry; apply read_time_iso; assumption)
  end.
  cbn [read_offset].
  rewrite <- Day_decompose, MakeTime_fields, MakeDate_Day, Z.sub_0_r.
  apply TimeClip_in_range. exact R.
Qed.

End RoundTrip.

(** * Facts about runs of the handler *)

Ltac answer env :=
  match goal with
  | |- context [env ?X ?ev ?w] =>
      let o := fresh "o" in
      let w' := fresh "w" in
      destruct (env X ev w) as [o w']
  end.

Ltac exec :=
  cbn [run bind try_catch await eval console_call POST_catch
       result_of calls_of fst snd].

Section Execution.

Context {host : Host}.

Lemma truthy_get (v : value) (k : string) :
  truthy (get v k) = true -> truthy v = true.
Proof. destruct v; cbn; try discriminate; reflexivity. Qed.

Lemma planMapping_durations key info :
  lookup key planMapping = Some info -> 1 <= durationInMonths info <= 12.
Proof.
  unfold planMapping. cbn [lookup].
  repeat match goal with
         | |- context [if ?b then _ else _] => destruct b
         end; intros E; inversion E; subst; cbn; lia.
Qed.

Lemma planMapping_get_entry key info :
  lookup key planMapping = Some info -> planMapping_get key = Entry info.
Proof. unfold planMapping_get. intros ->. reflexivity. Qed.

Lemma calculateExpirationDate_shifted t n :
  Z.abs t <= 8000000000000000 -> 0 <= n <= 12 ->
  calculateExpirationDate (Some t) (Some n) = inr (iso_format (shifted t n)).
Proof.
  intros Rt Rn. unfold calculateExpirationDate.
  rewrite setMonth_in_range by assumption. reflexivity.
Qed.

(** The handler on an accepted event: the expiration is computed, then the
    directory is asked to log the customer in, and the outcome chooses
    between the update and the creation. *)
Lemma POST_try_accepted body t info :
  accepted_event body t info ->
  POST_try {| json := inr body |}
  = (loginResult <- await (authService_login
                            {| cred_email := get (customer_of body) "email";
                               cred_password := "" |}) ;;
     match (if success loginResult then user loginResult else None) with
     | Some existingUser =>
         update_existing (customer_of body) (VString (plan info))
           (iso_format (shifted t (durationInMonths info))) existingUser
     | None =>
         create_new (customer_of body) (VString (plan info))
           (iso_format (shifted t (durationInMonths info)))
     end).
Proof.
  intros [Hdata Hevent Hpaid Hdate Hrange Hemail _ Hname (key & Hkey & Hinfo)].
  unfold POST_try, customer_of. cbn [json eval bind].
  rewrite (truthy_get _ _ Hdata), Hdata. cbn [negb orb].
  unfold recognized in Hevent. rewrite Hevent, Hpaid. cbn [andb].
  rewrite (truthy_get _ _ Hemail), Hemail, Hname. cbn [negb orb].
  rewrite Hkey. cbn [eval bind].
  rewrite (planMapping_get_entry _ _ Hinfo).
  rewrite Hdate. cbn [eval bind].
  rewrite calculateExpirationDate_shifted
    by (try assumption; pose proof (planMapping_durations _ _ Hinfo); lia).
  reflexivity.
Qed.


Lemma run_try_catch_bind {W A B : Type} (env : environment W)
  (p : prog A) (f : A -> prog B) (h : thrown -> prog B) (w : W) :
  run env (try_catch (bind p f) h) w
  = let '(r, w1, calls) := run env p w in
    let '(r2, w2, calls2) :=
      match r with
      | inr a => run env (try_catch (f a) h) w1
      | inl e => run env (h e) w1
      end in
    (r2, w2, (calls ++ calls2)%list).
Proof.
  revert w. induction p as [a | e | X ev k IH]; intros w.
  - cbn [bind try_catch run]. destruct (run env (try_catch (f a) h) w) as [[r2 w2] c2].
    reflexivity.
  - cbn [bind try_catch run]. destruct (run env (h e) w) as [[r2 w2] c2]. reflexivity.
  - cbn [bind try_catch run]. destruct (env X ev w) as [o w1]. rewrite IH.
    destruct (run env (k o) w1) as [[r w2] calls].
    destruct r as [e | a].
    + destruct (run env (h e) w2) as [[r2 w3] c2]. reflexivity.
    + destruct (run env (try_catch (f a) h) w2) as [[r2 w3] c2]. reflexivity.
Qed.

(** [sendWelcomeEmail] always returns: whatever the mail service does is
    caught, provided the email address can be printed for the log. *)
Lemma sendWelcomeEmail_returns (user : NewUser) (s : string) :
  ToString (email user) = inr s ->
  forall (W : Type) (env : environment W) (w : W),
    result_of (run env (sendWelcomeEmail user) w) = inr tt.
Proof.
  intros Hs W env w. unfold sendWelcomeEmail.
  destruct (negb (env_set "G_CLIENT_ID") || negb (env_set "G_CLIENT_SECRET")
            || negb (env_set "G_REFRESH_TOKEN") || negb (env_set "EMAIL_FROM")).
  - exec. answer env. reflexivity.
  - rewrite Hs. exec. answer env. destruct o as [[] | e]; exec.
    + destruct (ToString (nome user)) as [e | nome_text]; exec.
      * answer env. reflexivity.
      * answer env. destruct o as [[] | e]; exec; answer env; reflexivity.
    + answer env. reflexivity.
Qed.


(** Every run of the handler on an accepted event is one of the cases of
    [reconciled]. *)
Lemma POST_reconciles body t info :
  accepted_event body t info ->
  forall (W : Type) (env : environment W) (w : W),
    reconciled env body t info
      (result_of (run env (POST {| json := inr body |}) w))
      (calls_of (run env (POST {| json := inr body |}) w)).
Proof.
  intros A W env w.
  destruct (acc_email_text _ _ _ A) as [s Hs]. fold (customer_of body) in Hs.
  unfold POST. rewrite (POST_try_accepted _ _ _ A). exec.
  answer env. destruct o as [r | e]; exec.
  - destruct (if success r then user r else None) as [u |] eqn:G.
    + unfold update_existing. rewrite Hs. exec.
      answer env. exec. answer env. destruct o0 as [x | e]; exec.
      * apply account_updated. exact G.
      * answer env. apply update_rejected. exact G.
    + unfold create_new. fold (created_payload body t info).
      rewrite Hs. exec.
      answer env. exec. answer env. destruct o0 as [r' | e]; exec.
      * destruct (if success r' then user r' else None) as [u' |] eqn:G'.
        -- cbn [ToString]. exec. answer env.
           rewrite run_try_catch_bind.
           match goal with
           | |- context [run env (sendWelcomeEmail ?p) ?w] =>
               pose proof (sendWelcomeEmail_returns p s Hs W env w) as Ret;
               destruct (run env (sendWelcomeEmail p) w) as [[r0 w4] mail] eqn:E
           end.
           cbn [result_of fst] in Ret. subst r0. exec. rewrite app_nil_r.
           eapply account_created; eassumption.
        -- exec. answer env. apply creation_failed; assumption.
      * answer env. apply creation_rejected. exact G.
  - answer env. apply login_rejected.
Qed.


(** *** The calls of [sendWelcomeEmail] *)

Lemma sendWelcomeEmail_no_directory_call (user : NewUser)
  (W : Type) (env : environment W) (w : W) :
  filter is_directory_call (calls_of (run env (sendWelcomeEmail user) w)) = [].
Proof.
  unfold sendWelcomeEmail.
  destruct (negb (env_set "G_CLIENT_ID") || negb (env_set "G_CLIENT_SECRET")
            || negb (env_set "G_REFRESH_TOKEN") || negb (env_set "EMAIL_FROM")).
  - exec. answer env. reflexivity.
  - destruct (ToString (email user)) as [e0 | s];
      exec; answer env; destruct o as [[] | e]; exec;
      destruct (ToString (nome user)) as [e1 | nome_text]; exec;
      repeat (first [answer env | reflexivity
                    | match goal with o : outcome unit |- _ => destruct o as [[] | ?] end];
              exec).
Qed.

Lemma sendWelcomeEmail_message (user : NewUser)
  (W : Type) (env : environment W) (w : W) (userId raw : string) :
  In (Some (userId, raw))
     (map sent_message (calls_of (run env (sendWelcomeEmail user) w))) ->
  exists nome_text email_text : string,
    ToString (nome user) = inr nome_text
    /\ ToString (email user) = inr email_text
    /\ raw = encodedMessage
               (rawMessage ("EnemPro <" ++ env_text "EMAIL_FROM" ++ ">")%string
                  email_text
                  (emailBody nome_text email_text (password user) app_url)).
Proof.
  unfold sendWelcomeEmail.
  destruct (negb (env_set "G_CLIENT_ID") || negb (env_set "G_CLIENT_SECRET")
            || negb (env_set "G_REFRESH_TOKEN") || negb (env_set "EMAIL_FROM")).
  - exec. answer env. cbn. intros [H | []]. discriminate.
  - destruct (ToString (email user)) as [e0 | s];
      exec; answer env; destruct o as [[] | e]; exec;
      destruct (ToString (nome user)) as [e1 | nome_text]; exec;
      repeat (first [answer env
                    | match goal with o : outcome unit |- _ => destruct o as [[] | ?] end];
              exec);
      cbn [map sent_message In];
      intros H; repeat (destruct H as [H | H]); try discriminate; try contradiction;
      injection H as <- <-; eauto.
Qed.

End Execution.

(** * The properties of the specification *)

Section Claims.

Context {host : Host}.

Lemma filter_nil_in {A : Type} (f : A -> bool) (l : list A) (x : A) :
  filter f l = [] -> In x l -> f x = false.
Proof.
  intros E H. destruct (f x) eqn:F; [| reflexivity].
  assert (In x (filter f l)) by (apply filter_In; auto).
  rewrite E in *. contradiction.
Qed.

Lemma not_in_mail (user : NewUser) W (env : environment W) w w' r mail c :
  run env (sendWelcomeEmail user) w = (r, w', mail) ->
  is_directory_call c = true -> ~ In c mail.
Proof.
  intros E D H.
  pose proof (sendWelcomeEmail_no_directory_call user W env w) as N.
  rewrite E in N. cbn [calls_of snd] in N.
  pose proof (filter_nil_in _ _ _ N H) as F. congruence.
Qed.

Lemma filter_mail (user : NewUser) W (env : environment W) w w' r mail :
  run env (sendWelcomeEmail user) w = (r, w', mail) ->
  filter is_directory_call mail = [].
Proof.
  intros E. pose proof (sendWelcomeEmail_no_directory_call user W env w) as N.
  rewrite E in N. exact N.
Qed.

Ltac entries :=
  unfold login_call, update_call, register_call, console_entry in *.

(** Splits [H : In c calls], for a trace of [reconciled], into its cases. *)
Ltac occurrences H :=
  entries;
  try (apply in_app_or in H; destruct H as [H | H];
       [| exfalso; eapply not_in_mail in H; [exact H | eassumption | reflexivity]]);
  cbn [In] in H;
  repeat (destruct H as [H | H]); try contradiction.

Lemma sendWelcomeEmail_attempt (user : NewUser) W (env : environment W) w :
  mail_configured = true ->
  exists o rest,
    calls_of (run env (sendWelcomeEmail user) w)
    = Call oAuth2Client_getAccessToken o :: rest.
Proof.
  unfold mail_configured, sendWelcomeEmail. intros C.
  destruct (env_set "G_CLIENT_ID"), (env_set "G_CLIENT_SECRET"),
    (env_set "G_REFRESH_TOKEN"), (env_set "EMAIL_FROM"); try discriminate.
  cbn [negb orb]. exec. answer env.
  match goal with
  | |- context [run env ?p ?w'] => destruct (run env p w') as [[r1 w1] c1]
  end.
  exec. eauto.
Qed.

Lemma filter_nil_weaken {A : Type} (f g : A -> bool) (l : list A) :
  (forall x, f x = true -> g x = true) ->
  filter g l = [] -> filter f l = [] /\ existsb f l = false.
Proof.
  intros I. induction l as [| x l IH]; cbn; [auto |].
  destruct (g x) eqn:G; [discriminate |]. intros E.
  destruct (f x) eqn:F; [rewrite (I _ F) in G; discriminate |].
  destruct (IH E). auto.
Qed.

Lemma contains_right (a b s : string) : contains b s -> contains (a ++ b)%string s.
Proof.
  intros (x & y & ->). exists (a ++ x)%string, y. now rewrite append_assoc.
Qed.

Lemma contains_prefix (s b : string) : contains (s ++ b)%string s.
Proof. exists "", b. reflexivity. Qed.

Lemma rawMessage_contains (from to nome_text email_text password_text url : string) :
  contains (rawMessage from to
              (emailBody nome_text email_text password_text url)) password_text
  /\ contains (rawMessage from to
                 (emailBody nome_text email_text password_text url)) email_text.
Proof.
  unfold rawMessage, emailBody. cbn [String.concat].
  split; do 12 apply contains_right.
  - do 5 apply contains_right. apply contains_prefix.
  - do 3 apply contains_right. apply contains_prefix.
Qed.

(** The shift of [setMonth] in days. *)
Lemma shifted_days t n :
  shifted t n
  = t + (MakeDay (YearFromTime (LocalTime t)) (MonthFromTime (LocalTime t) + n)
                 (DateFromTime (LocalTime t))
         - Day (LocalTime t)) * msPerDay.
Proof.
  unfold shifted, UTC. set (lt := LocalTime t).
  pose proof (MakeDate_Day lt) as E.
  assert (L : lt = t + LocalTZA) by reflexivity.
  unfold MakeDate in *. lia.
Qed.

Lemma mid_January_2024 t :
  DayFromYear 2024 <= Day t < DayFromYear 2024 + 29 ->
  MakeDay (YearFromTime t) (MonthFromTime t + 1) (DateFromTime t) - Day t = 31.
Proof.
  intros R.
  destruct (civil_of_MakeDay 2024 0 (Day t - DayFromYear 2024 + 1) t) as (Y & M & D).
  - lia.
  - change (DaysInMonth 2024 0) with 31. lia.
  - rewrite MakeDay_in_range by lia.
    change (DaysBeforeMonth (leap_of 2024) 0) with 0. lia.
  - rewrite Y, M, D. rewrite MakeDay_in_range by lia.
    change (DaysBeforeMonth (leap_of 2024) (0 + 1)) with 31. lia.
Qed.

Lemma paid_2024_01_15 :
  -43200000 <= LocalTZA <= 50400000 ->
  shifted 1705276800000 1 = 1707955200000.
Proof.
  intros Z. rewrite shifted_days, mid_January_2024.
  - reflexivity.
  - change (DayFromYear 2024) with 19723. unfold Day, LocalTime, msPerDay. divs.
Qed.

Lemma write_is_directory_call c : is_directory_write c = true -> is_directory_call c = true.
Proof. destruct c as [X ev o]. destruct ev; cbn; congruence. Qed.

Lemma written_by_reconciled body t info W (env : environment W) res calls :
  reconciled env body t info res calls ->
  forall c, In c calls -> is_directory_write c = true ->
  written_entitlement c
  = Some (VString (plan info), iso_format (shifted t (durationInMonths info))).
Proof.
  intros R c Hin Hw.
  destruct R as [e args o1 | r0 u0 args o1 x G | r0 u0 args o1 e args' o1' G
                | r0 args o1 r' u' args' o1' w1 w2 mail G G' E
                | r0 args o1 r' args' o1' G G' | r0 args o1 e args' o1' G].
  all: try (apply in_app_or in Hin; destruct Hin as [Hin | Hin];
            [| exfalso; eapply not_in_mail in Hin;
               [exact Hin | exact E | apply write_is_directory_call; exact Hw]]).
  all: entries; cbn [In] in Hin; repeat (destruct Hin as [Hin | Hin]);
    try contradiction; subst c; try discriminate; reflexivity.
Qed.

Lemma Date_parse_2024_01_15 :
  Date_parse "2024-01-15T00:00:00Z" = Some 1705276800000.
Proof. vm_compute. reflexivity. Qed.

Lemma DaysInMonth_next_year y m d :
  0 <= m <= 11 -> d <= DaysInMonth y m -> m <> 1 \/ d <> 29 ->
  d <= DaysInMonth (y + 1) m.
Proof.
  intros Rm Rd N.
  destruct (Z.eq_dec m 1) as [-> | Hm].
  - unfold DaysInMonth in *.
    destruct (DaysInYear y =? 366), (DaysInYear (y + 1) =? 366); lia.
  - each_month Rm; subst m; try lia; exact Rd.
Qed.

Lemma leap_year_next y : DaysInYear y = 366 -> DaysInYear (y + 1) = 365.
Proof.
  unfold DaysInYear.
  destruct (Z.eqb_spec (y mod 4) 0) as [E | E]; cbn [negb]; [| discriminate].
  intros _. destruct (Z.eqb_spec ((y + 1) mod 4) 0) as [E' | E']; cbn [negb];
    [exfalso; divs | reflexivity].
Qed.

Lemma renewal_accepted :
  accepted_event renewal_body 1705276800000 mensal.
Proof.
  constructor; try reflexivity.
  - vm_compute. discriminate.
  - eexists. reflexivity.
  - exists "Plano Mensal". split; reflexivity.
Qed.

Lemma try_catch_POST_catch_responds (p : prog Response)
  (W : Type) (env : environment W) (w : W) :
  exists resp, result_of (run env (try_catch p POST_catch) w) = inr resp.
Proof.
  revert w. induction p as [r | e | X ev k IH]; intros w.
  - eexists. reflexivity.
  - exec. answer env. eexists. reflexivity.
  - cbn [try_catch run]. destruct (env X ev w) as [o w']. destruct (IH o w') as [resp E].
    destruct (run env (try_catch (k o) POST_catch) w') as [[r w''] c].
    exists resp. exact E.
Qed.

(** ** The claims *)


(** C2, as amended.  On an accepted event, when the registration does
    not give a user (it resolves without success or without a user, for a
    conflict or any other reason, or it is rejected), the response has
    status 500 and [success: false], and the registration is the only write
    the run makes: there is no update and no second attempt. *)
Theorem failed_creation_is_a_server_error :
  forall (body : value) (t : Z) (info : PlanInfo),
    accepted_event body t info ->
    forall (W : Type) (env : environment W) (w : W)
           (payload : NewUser) (o : outcome AuthResult),
      In (Call (authService_register payload) o)
         (calls_of (run env (POST {| json := inr body |}) w)) ->
      gives_user o = None ->
      (exists resp,
          result_of (run env (POST {| json := inr body |}) w) = inr resp
          /\ status resp = 500 /\ res_success resp = false)
      /\ filter is_directory_write (calls_of (run env (POST {| json := inr body |}) w))
         = [Call (authService_register payload) o].
Proof.
  intros body t info A W env w p o Hin Hnone.
  pose proof (POST_reconciles body t info A W env w) as R.
  destruct R as [e args o1 | r0 u0 args o1 x G | r0 u0 args o1 e args' o' G
                | r0 args o1 r' u' args' o' w1 w2 mail G G' E
                | r0 args o1 r' args' o' G G' | r0 args o1 e args' o' G];
    occurrences Hin;
    apply (f_equal registration) in Hin; cbn in Hin; try discriminate;
    injection Hin as <- <-.
  - cbn [gives_user] in *. congruence.
  - split; [eexists; repeat split; reflexivity | reflexivity].
  - split; [eexists; repeat split; reflexivity | reflexivity].
Qed.

(** C3.  When the body carries [data] and the event type is not one of
    the two recognized (it is any other value that can be printed) or
    [paidAt] is absent (or falsy), the response has status 200 and
    [success: true] and no call reaches the directory. *)
Theorem other_events_are_acknowledged :
  forall (body : value) (text : string),
    truthy (get (webhookData_of body) "data") = true ->
    ToString (get (webhookData_of body) "event") = inr text ->
    recognized (get (webhookData_of body) "event") = false
    \/ truthy (get (get (webhookData_of body) "data") "paidAt") = false ->
    forall (W : Type) (env : environment W) (w : W),
    exists resp,
      result_of (run env (POST {| json := inr body |}) w) = inr resp
      /\ status resp = 200 /\ res_success resp = true
      /\ filter is_directory_call (calls_of (run env (POST {| json := inr body |}) w)) = [].
Proof.
  intros body text Hdata Htext Hno W env w.
  unfold POST, POST_try. cbn [json eval bind].
  rewrite (truthy_get _ _ Hdata), Hdata. cbn [negb orb].
  assert (C : (strict_eq (get (webhookData_of body) "event") "subscription_created"
               || strict_eq (get (webhookData_of body) "event") "subscription_renewed")
              && truthy (get (get (webhookData_of body) "data") "paidAt") = false).
  { destruct Hno as [H | H]; [unfold recognized in H |]; rewrite H;
      [reflexivity | apply andb_false_r]. }
  rewrite C, Htext. exec. answer env.
  eexists. repeat split; reflexivity.
Qed.

(** C4, at the failing input.  A recognized event with [paidAt], a valid
    customer and the product name constructor, which is no key of the
    catalog: the answer is the server error 500 of the [catch] block (the
    RangeError of [toISOString]), not the 400 of an unrecognized plan.  No
    call reaches the directory. *)
Theorem inherited_name_is_a_server_error :
  forall (W : Type) (env : environment W) (w : W),
  exists (o : outcome unit) (w' : W),
    run env (POST {| json := inr (example_body "subscription_created"
                                    "2024-01-15T00:00:00Z" "constructor") |}) w
    = (inr (server_error RangeError_invalid_time), w',
       [Call (console "error"
                [ArgString "Erro ao processar webhook da Cakto:";
                 ArgThrown RangeError_invalid_time]) o]).
Proof.
  intros W env w. unfold POST, POST_try.
  cbn [json eval bind example_body webhookData_of get get_opt lookup String.eqb Ascii.eqb
       Bool.eqb truthy negb orb andb strict_eq ToString Date_new].
  change (planMapping_get "constructor") with (Inherited "constructor").
  rewrite Date_parse_2024_01_15.
  cbn [eval bind calculateExpirationDate getMonth num_add setMonth toISOString try_catch].
  unfold POST_catch. exec.
  destruct (env unit (console "error"
                     [ArgString "Erro ao processar webhook da Cakto:";
                      ArgThrown RangeError_invalid_time]) w) as [o w'].
  exists o, w'. reflexivity.
Qed.

(** C5.  On an accepted event, when the login resolves with success and a
    user, the calls to the directory are that login and one update of that
    user, whose patch sets [isActive], [plan] and [planExpiresAt] and no
    other field; no call reaches the mail service; and when the update
    resolves the response has status 200 and [success: true]. *)
Theorem existing_account_is_updated :
  forall (body : value) (t : Z) (info : PlanInfo),
    accepted_event body t info ->
    forall (W : Type) (env : environment W) (w : W)
           (c : Credentials) (r : AuthResult) (existingUser : User),
      In (Call (authService_login c) (Resolved r))
         (calls_of (run env (POST {| json := inr body |}) w)) ->
      success r = true -> user r = Some existingUser ->
      exists o : outcome unit,
        filter is_directory_call (calls_of (run env (POST {| json := inr body |}) w))
        = [ Call (authService_login
                    {| cred_email := get (customer_of body) "email";
                       cred_password := "" |}) (Resolved r);
            Call (authService_updateUser (id existingUser)
                    {| patch_email := None;
                       patch_password := None;
                       patch_nome := None;
                       patch_phone := None;
                       patch_cpf := None;
                       patch_birthDate := None;
                       patch_role := None;
                       patch_isActive := Some true;
                       patch_plan := Some (VString (plan info));
                       patch_planExpiresAt :=
                         Some (iso_format (shifted t (durationInMonths info))) |}) o ]
        /\ filter is_mail_call (calls_of (run env (POST {| json := inr body |}) w)) = []
        /\ (forall x, o = Resolved x ->
            exists resp,
              result_of (run env (POST {| json := inr body |}) w) = inr resp
              /\ status resp = 200 /\ res_success resp = true).
Proof.
  intros body t info A W env w c r u Hin Hs Hu.
  pose proof (POST_reconciles body t info A W env w) as R.
  destruct R as [e args o | r0 u0 args o x G | r0 u0 args o e args' o' G
                | r0 args o r' u' args' o' w1 w2 mail G G' E
                | r0 args o r' args' o' G G' | r0 args o e args' o' G];
    occurrences Hin;
    try (apply (f_equal login_outcome) in Hin; cbn in Hin; try discriminate;
         injection Hin as <-);
    cbn [gives_user] in G; rewrite Hs, Hu in G; try discriminate; injection G as <-.
  - exists (Resolved x). repeat split; try reflexivity.
    intros _ _. eexists. repeat split; reflexivity.
  - exists (Rejected e). repeat split; try reflexivity.
    intros x Hx. discriminate.
Qed.


(** C7, at the failing inputs.  Every property name of
    [Object.prototype], constructor among them, is no key of the catalog
    and yet [planMapping[key]] is not [undefined] for it. *)
Theorem Object_prototype_names_are_resolved :
  Forall (fun key => planMapping_get key = Inherited key) Object_prototype_keys.
Proof. repeat constructor. Qed.


(** C9.  On an accepted event the first call of every run is
    [authService.login] with the customer's email and the empty password,
    and no other login or lookup follows; an update is issued exactly when
    that login resolves with success and a user, and a registration exactly
    when it resolves without success or without a user. *)
Theorem login_decides_between_update_and_creation :
  forall (body : value) (t : Z) (info : PlanInfo),
    accepted_event body t info ->
    forall (W : Type) (env : environment W) (w : W),
    exists (o : outcome AuthResult) (rest : list call),
      calls_of (run env (POST {| json := inr body |}) w)
      = Call (authService_login
                {| cred_email := get (customer_of body) "email";
                   cred_password := "" |}) o :: rest
      /\ filter is_login rest = []
      /\ (existsb is_update rest = true <->
          exists r existingUser,
            o = Resolved r /\ success r = true /\ user r = Some existingUser)
      /\ (existsb is_register rest = true <->
          exists r, o = Resolved r /\ (success r = false \/ user r = None)).
Proof.
  intros body t info A W env w.
  pose proof (POST_reconciles body t info A W env w) as R.
  assert (GU : forall r u, gives_user (Resolved r) = Some u ->
                           success r = true /\ user r = Some u).
  { intros r u. cbn. destruct (success r); [auto | discriminate]. }
  assert (GN : forall r, gives_user (Resolved r) = None ->
                         success r = false \/ user r = None).
  { intros r. cbn. destruct (success r); auto. }
  destruct R as [e args o1 | r0 u0 args o1 x G | r0 u0 args o1 e args' o' G
                | r0 args o1 r' u' args' o' w1 w2 mail G G' E
                | r0 args o1 r' args' o' G G' | r0 args o1 e args' o' G];
    entries; eexists _, _; (split; [reflexivity |]);
    try (pose proof (filter_mail _ _ _ _ _ _ _ E) as FM);
    cbn [filter is_login existsb is_update is_register orb app].
  - repeat split; try discriminate.
    + intros (r & u & Hr & _). discriminate.
    + intros (r & Hr & _). discriminate.
  - destruct (GU _ _ G). repeat split; try discriminate; eauto.
    intros (r & Hr & [H1 | H1]); injection Hr as <-; congruence.
  - destruct (GU _ _ G). repeat split; try discriminate; eauto.
    intros (r & Hr & [H1 | H1]); injection Hr as <-; congruence.
  - destruct (GN _ G) as [H1 | H1].
    all: assert (FL : filter is_login mail = [])
      by (apply (filter_nil_weaken is_login is_directory_call);
          [intros [X ev oo]; destruct ev; cbn; congruence | exact FM]).
    all: assert (FU : existsb is_update mail = false)
      by (apply (filter_nil_weaken is_update is_directory_call);
          [intros [X ev oo]; destruct ev; cbn; congruence | exact FM]).
    all: rewrite FL, FU; repeat split; try discriminate; eauto.
    all: intros (r & u & Hr & H2 & H3); injection Hr as <-; congruence.
  - pose proof (GN _ G). repeat split; try discriminate; eauto.
    intros (r & u & Hr & H1 & H2); injection Hr as <-.
    cbn in G. rewrite H1, H2 in G. discriminate.
  - pose proof (GN _ G). repeat split; try discriminate; eauto.
    intros (r & u & Hr & H1 & H2); injection Hr as <-.
    cbn in G. rewrite H1, H2 in G. discriminate.
Qed.


(** ** Further properties of the validation *)

(** X1.  A body that is falsy, or whose first element is when it is an
    array, or whose [data] is absent or falsy, is answered 400 with
    [success: false], and the run makes no call at all. *)
Theorem missing_data_is_rejected :
  forall body : value,
    truthy (webhookData_of body) = false
    \/ truthy (get (webhookData_of body) "data") = false ->
    forall (W : Type) (env : environment W) (w : W),
      run env (POST {| json := inr body |}) w
      = (inr (NextResponse_json false "Payload inválido." None None (Some 400)), w, []).
Proof.
  intros body H W env w. unfold POST, POST_try. cbn [json eval bind].
  assert (C : negb (truthy (webhookData_of body))
              || negb (truthy (get (webhookData_of body) "data")) = true).
  { destruct H as [H | H]; rewrite H; [reflexivity | apply orb_true_r]. }
  rewrite C. reflexivity.
Qed.

(** X2.  A recognized event with [paidAt] whose customer is absent, or
    lacks an email or a name, is answered 400 with [success: false], and the
    run makes no call at all. *)
Theorem missing_customer_is_rejected :
  forall body : value,
    truthy (get (webhookData_of body) "data") = true ->
    recognized (get (webhookData_of body) "event") = true ->
    truthy (get (get (webhookData_of body) "data") "paidAt") = true ->
    truthy (customer_of body) = false
    \/ truthy (get (customer_of body) "email") = false
    \/ truthy (get (customer_of body) "name") = false ->
    forall (W : Type) (env : environment W) (w : W),
      run env (POST {| json := inr body |}) w
      = (inr (NextResponse_json false "Dados do cliente ausentes." None None (Some 400)),
         w, []).
Proof.
  intros body Hdata Hevent Hpaid H W env w.
  unfold POST, POST_try, customer_of in *. cbn [json eval bind].
  rewrite (truthy_get _ _ Hdata), Hdata. cbn [negb orb].
  unfold recognized in Hevent. rewrite Hevent, Hpaid. cbn [andb].
  match goal with
  | |- context [if ?c then _ else _] => assert (C : c = true)
  end.
  { destruct H as [H | [H | H]]; rewrite H; cbn [negb orb];
      rewrite ?orb_true_r; reflexivity. }
  rewrite C. reflexivity.
Qed.

(** X3.  A recognized event with [paidAt] and a valid customer whose
    product name reads as [undefined] in [planMapping] is answered 400 with
    [success: false], and no call reaches the directory. *)
Theorem unknown_plan_is_rejected :
  forall (body : value) (key : string),
    truthy (get (webhookData_of body) "data") = true ->
    recognized (get (webhookData_of body) "event") = true ->
    truthy (get (get (webhookData_of body) "data") "paidAt") = true ->
    truthy (get (customer_of body) "email") = true ->
    truthy (get (customer_of body) "name") = true ->
    ToString (get_opt (get (get (webhookData_of body) "data") "product") "name")
    = inr key ->
    planMapping_get key = NoProperty ->
    forall (W : Type) (env : environment W) (w : W),
    exists resp,
      result_of (run env (POST {| json := inr body |}) w) = inr resp
      /\ status resp = 400 /\ res_success resp = false
      /\ filter is_directory_call (calls_of (run env (POST {| json := inr body |}) w)) = [].
Proof.
  intros body key Hdata Hevent Hpaid Hemail Hname Hkey Hnone W env w.
  unfold POST, POST_try, customer_of in *. cbn [json eval bind].
  rewrite (truthy_get _ _ Hdata), Hdata. cbn [negb orb].
  unfold recognized in Hevent. rewrite Hevent, Hpaid. cbn [andb].
  rewrite (truthy_get _ _ Hemail), Hemail, Hname. cbn [negb orb].
  rewrite Hkey. cbn [eval bind]. rewrite Hnone. exec. answer env.
  eexists. repeat split; reflexivity.
Qed.

(** X4.  [planMapping[key]] is the configured entry exactly for the four
    keys of the table, and [undefined] exactly for the strings that are
    neither a key of the table nor a property name of [Object.prototype];
    the case variants of a key are among the latter. *)
Theorem plan_resolution :
  (forall (key : string) (info : PlanInfo),
      planMapping_get key = Entry info <-> lookup key planMapping = Some info)
  /\ planMapping_get "Plano Mensal" = Entry {| plan := "mensal"; durationInMonths := 1 |}
  /\ planMapping_get "Plano 6 Meses" = Entry {| plan := "6meses"; durationInMonths := 6 |}
  /\ planMapping_get "Plano Anual" = Entry {| plan := "anual"; durationInMonths := 12 |}
  /\ planMapping_get "Produto Teste" = Entry {| plan := "anual"; durationInMonths := 12 |}
  /\ (forall key : string,
         planMapping_get key = NoProperty <->
         lookup key planMapping = None /\ ~ In key Object_prototype_keys)
  /\ planMapping_get "plano mensal" = NoProperty
  /\ planMapping_get "PLANO MENSAL" = NoProperty.
Proof.
  repeat split; try reflexivity.
  - unfold planMapping_get. destruct (lookup key planMapping).
    + intros E. injection E as ->. reflexivity.
    + destruct (existsb (String.eqb key) Object_prototype_keys); discriminate.
  - intros H. unfold planMapping_get. rewrite H. reflexivity.
  - unfold planMapping_get in H. destruct (lookup key planMapping); [discriminate | reflexivity].
  - unfold planMapping_get in H. intros Hin.
    destruct (lookup key planMapping); [discriminate |].
    assert (E : existsb (String.eqb key) Object_prototype_keys = true).
    { apply existsb_exists. exists key. split; [exact Hin | apply String.eqb_refl]. }
    rewrite E in H. discriminate.
  - intros [H N]. unfold planMapping_get. rewrite H.
    destruct (existsb (String.eqb key) Object_prototype_keys) eqn:E; [| reflexivity].
    apply existsb_exists in E. destruct E as (k & Hin & Hk).
    apply String.eqb_eq in Hk. subst k. contradiction.
Qed.

(** X5.  [POST] never throws: every run, on every request and in every
    environment, ends with a response. *)
Theorem POST_always_responds :
  forall (request : Request) (W : Type) (env : environment W) (w : W),
  exists resp, result_of (run env (POST request) w) = inr resp.
Proof. intros. apply try_catch_POST_catch_responds. Qed.

(** X6.  When [request.json()] throws (the body is not JSON), the
    response is the 500 of the [catch] block and no call reaches the
    directory. *)
Theorem malformed_json_is_a_server_error :
  forall (e : thrown) (W : Type) (env : environment W) (w : W),
  exists resp,
    result_of (run env (POST {| json := inl e |}) w) = inr resp
    /\ status resp = 500 /\ res_success resp = false
    /\ filter is_directory_call (calls_of (run env (POST {| json := inl e |}) w)) = [].
Proof.
  intros e W env w. unfold POST, POST_try. cbn [json]. exec. answer env.
  eexists. repeat split; reflexivity.
Qed.

End Claims.

(** * The properties on examples *)

Section ExamplesUTC.

Existing Instance utc_host.


(** C2 as stated fails where the registration reports a conflict: the
    response is the 500 of a failed registration and no update is issued. *)
Lemma conflict_is_not_retried :
  result_of (run (host := utc_host) (example_directory not_found conflict)
               (POST {| json := inr renewal_body |}) tt)
  = inr {| status := 500;
           res_success := false;
           res_message := "Falha ao registrar usuário: E-mail já cadastrado";
           res_userId := None;
           res_error := None |}
  /\ filter is_update
       (calls_of (run (host := utc_host) (example_directory not_found conflict)
                    (POST {| json := inr renewal_body |}) tt))
     = [].
Proof. split; vm_compute; reflexivity. Qed.

Lemma failed_creation_is_a_server_error_witness :
  (exists resp,
      result_of (run (host := utc_host) (example_directory not_found conflict)
                   (POST {| json := inr renewal_body |}) tt) = inr resp
      /\ status resp = 500 /\ res_success resp = false)
  /\ filter is_directory_write
       (calls_of (run (host := utc_host) (example_directory not_found conflict)
                    (POST {| json := inr renewal_body |}) tt))
     = [Call (authService_register
                (created_payload renewal_body 1705276800000 mensal))
             (Resolved conflict)].
Proof.
  apply (failed_creation_is_a_server_error (host := utc_host)
           renewal_body 1705276800000 mensal (renewal_accepted (host := utc_host))).
  - vm_compute. right. right. left. reflexivity.
  - reflexivity.
Defined.

Lemma other_events_are_acknowledged_witness :
  exists resp,
    result_of (run (host := utc_host) (example_directory found registered)
                 (POST {| json := inr (example_body "payment_failed"
                                         "2024-01-15T00:00:00Z" "Plano Mensal") |}) tt)
    = inr resp
    /\ status resp = 200 /\ res_success resp = true
    /\ filter is_directory_call
         (calls_of (run (host := utc_host) (example_directory found registered)
                      (POST {| json := inr (example_body "payment_failed"
                                              "2024-01-15T00:00:00Z" "Plano Mensal") |})
                      tt))
       = [].
Proof.
  apply (other_events_are_acknowledged (host := utc_host) _ "payment_failed").
  - reflexivity.
  - reflexivity.
  - left. reflexivity.
Defined.

Lemma existing_account_is_updated_witness :
  exists o : outcome unit,
    filter is_directory_call
      (calls_of (run (host := utc_host) (example_directory found registered)
                   (POST {| json := inr renewal_body |}) tt))
    = [ Call (authService_login
                {| cred_email := get (customer_of renewal_body) "email";
                   cred_password := "" |}) (Resolved found);
        Call (authService_updateUser (id {| id := "u1" |})
                {| patch_email := None;
                   patch_password := None;
                   patch_nome := None;
                   patch_phone := None;
                   patch_cpf := None;
                   patch_birthDate := None;
                   patch_role := None;
                   patch_isActive := Some true;
                   patch_plan := Some (VString (plan mensal));
                   patch_planExpiresAt :=
                     Some (iso_format (shifted 1705276800000 (durationInMonths mensal))) |})
             o ]
    /\ filter is_mail_call
         (calls_of (run (host := utc_host) (example_directory found registered)
                      (POST {| json := inr renewal_body |}) tt)) = []
    /\ (forall x, o = Resolved x ->
        exists resp,
          result_of (run (host := utc_host) (example_directory found registered)
                       (POST {| json := inr renewal_body |}) tt) = inr resp
          /\ status resp = 200 /\ res_success resp = true).
Proof.
  apply (existing_account_is_updated (host := utc_host)
           renewal_body 1705276800000 mensal (renewal_accepted (host := utc_host))
           unit (example_directory found registered) tt
           {| cred_email := VString "ana@example.com"; cred_password := "" |}).
  - vm_compute. left. reflexivity.
  - reflexivity.
  - reflexivity.
Defined.

Lemma login_decides_between_update_and_creation_witness :
  exists (o : outcome AuthResult) (rest : list call),
    calls_of (run (example_directory found registered)
                (POST {| json := inr renewal_body |}) tt)
    = Call (authService_login
              {| cred_email := get (customer_of renewal_body) "email";
                 cred_password := "" |}) o :: rest
    /\ filter is_login rest = []
    /\ (existsb is_update rest = true <->
        exists r existingUser,
          o = Resolved r /\ success r = true /\ user r = Some existingUser)
    /\ (existsb is_register rest = true <->
        exists r, o = Resolved r /\ (success r = false \/ user r = None)).
Proof.
  apply (login_decides_between_update_and_creation
           renewal_body 1705276800000 mensal (renewal_accepted (host := utc_host))).
Defined.



Lemma missing_data_is_rejected_witness :
  run (example_directory found registered)
    (POST {| json := inr (VObject [("event", VString "subscription_created")]) |}) tt
  = (inr (NextResponse_json false "Payload inválido." None None (Some 400)), tt, []).
Proof.
  apply (missing_data_is_rejected (host := utc_host)). right. reflexivity.
Defined.

Lemma missing_customer_is_rejected_witness :
  run (example_directory found registered)
    (POST {| json := inr (VObject
                            [("event", VString "subscription_created");
                             ("data", VObject
                                        [("customer", VObject [("email", VString "ana@example.com")]);
                                         ("paidAt", VString "2024-01-15T00:00:00Z")])]) |}) tt
  = (inr (NextResponse_json false "Dados do cliente ausentes." None None (Some 400)),
     tt, []).
Proof.
  apply (missing_customer_is_rejected (host := utc_host)); try reflexivity.
  right. right. reflexivity.
Defined.

Lemma unknown_plan_is_rejected_witness :
  exists resp,
    result_of (run (example_directory found registered)
                 (POST {| json := inr (example_body "subscription_created"
                                         "2024-01-15T00:00:00Z" "Plano Desconhecido") |}) tt)
    = inr resp
    /\ status resp = 400 /\ res_success resp = false
    /\ filter is_directory_call
         (calls_of (run (example_directory found registered)
                      (POST {| json := inr (example_body "subscription_created"
                                              "2024-01-15T00:00:00Z" "Plano Desconhecido") |})
                      tt)) = [].
Proof.
  apply (unknown_plan_is_rejected (host := utc_host) _ "Plano Desconhecido");
    reflexivity.
Defined.

End ExamplesUTC.

Section ExamplesMail.

Existing Instance mail_host.



End ExamplesMail.
